(** * vecmath: a four-component float vector

    Shallow embedding of class [Vec] of [vecmath/vec.py], the module
    that [build.py] compiles, and of its copy [src/vecmath/vec.py], the
    one that [setup.py] compiles, with the properties of the
    specification stated over them.

    The class is a Cython extension type ([@cython.cclass]) whose four
    fields are declared [cython.float].  The module records in
    [CYTH_VEC_COMPILED] whether it runs compiled; compiled, a
    [cython.float] is an IEEE-754 binary32 number, interpreted it is the
    Python float, a binary64 number.  Floats are the [spec_float] values of
    the standard library, whose operations are parameterised by the format,
    so every statement below is made for both ways of running the code. *)

From Stdlib Require Import ZArith Bool String List Lia QArith Qpower.
From Stdlib Require Import Floats.SpecFloat.
From stdpp Require Import base option gmap.

Local Open Scope Z_scope.

(** ** Floating-point formats *)

Module cython.

Record format := Format { prec : Z; emax : Z }.

Definition binary32 : format := Format 24 128.
Definition binary64 : format := Format 53 1024.

(** The format of a [cython.float], by [cython.compiled]. *)
Definition float (compiled : bool) : format :=
  if compiled then binary32 else binary64.

End cython.

(** A Python float object is a binary64 number. *)
Definition pyfloat : Type := spec_float.

(** A value of a [cython.float] slot. *)
Definition cfloat : Type := spec_float.

Section Arith.
Variable fmt : cython.format.

Definition fadd : spec_float -> spec_float -> spec_float :=
  SFadd (cython.prec fmt) (cython.emax fmt).
Definition fsub : spec_float -> spec_float -> spec_float :=
  SFsub (cython.prec fmt) (cython.emax fmt).
Definition fmul : spec_float -> spec_float -> spec_float :=
  SFmul (cython.prec fmt) (cython.emax fmt).

(** The float nearest to the integer [z] (ties to even). *)
Definition of_Z (z : Z) : spec_float :=
  binary_normalize (cython.prec fmt) (cython.emax fmt) z 0 false.

(** Conversion of a float of any format to [fmt], rounding to nearest,
    ties to even: a C cast between [float] and [double]. *)
Definition convert (f : spec_float) : spec_float :=
  match f with
  | S754_finite s m e =>
      binary_normalize (cython.prec fmt) (cython.emax fmt)
        (cond_Zopp s (Zpos m)) e s
  | _ => f
  end.

(** [f] is a number of the format: its mantissa and exponent are the
    ones the format uses for it. *)
Definition valid (f : spec_float) : bool :=
  valid_binary (cython.prec fmt) (cython.emax fmt) f.
End Arith.

(** IEEE comparison [==]: false as soon as one side is NaN, and
    [+0.0 == -0.0]. *)
Definition feqb : spec_float -> spec_float -> bool := SFeqb.

Definition is_nan (f : spec_float) : bool :=
  match f with S754_nan => true | _ => false end.

(** Zero or a nonzero finite number: neither NaN nor an infinity. *)
Definition is_finite (f : spec_float) : bool :=
  match f with
  | S754_zero _ | S754_finite _ _ _ => true
  | _ => false
  end.

(** The literal [0.0]. *)
Definition zero : spec_float := S754_zero false.

(** The rational number a finite float stands for. *)
Definition F2Q (f : spec_float) : Q :=
  match f with
  | S754_finite s m e => (inject_Z (cond_Zopp s (Zpos m)) * 2 ^ e)%Q
  | _ => 0%Q
  end.

(** The format has a float whose value is [q]. *)
Definition representable (fmt : cython.format) (q : Q) : Prop :=
  exists r : spec_float,
    valid fmt r = true /\ is_finite r = true /\ (F2Q r == q)%Q.

(** [a] and [b] are finite floats of the format and so is their exact
    sum. *)
Definition exact_sum (fmt : cython.format) (a b : spec_float) : Prop :=
  valid fmt a = true /\ valid fmt b = true
  /\ is_finite a = true /\ is_finite b = true
  /\ representable fmt (F2Q a + F2Q b).

(** ** The boundary between Python floats and [cython.float]

    Python hands numbers to the extension type as float objects.  A
    parameter or field declared [cython.float] receives the object
    converted to the C type (a cast from [double], which rounds); a C
    float handed to Python becomes a float object holding exactly the
    same number, so converting that object back gives the C float
    again.  [Boxed c] is such an object, [Py d] any other double. *)

Inductive pyobject : Type :=
  | Py (d : pyfloat)
  | Boxed (c : cfloat).

Section Boundary.
Variable CYTH_VEC_COMPILED : bool.

(** C float to [double]: exact.  Interpreted, both are the Python
    float. *)
Definition widen (c : cfloat) : pyfloat :=
  if CYTH_VEC_COMPILED then convert cython.binary64 c else c.

(** [double] to C float: rounds when compiled. *)
Definition narrow (d : pyfloat) : cfloat :=
  if CYTH_VEC_COMPILED then convert cython.binary32 d else d.

Definition as_double (o : pyobject) : pyfloat :=
  match o with
  | Py d => d
  | Boxed c => widen c
  end.

(** Conversion of an argument to a [cython.float] (or, through a C
    [double], to a field of that type). *)
Definition to_cfloat (o : pyobject) : cfloat :=
  match o with
  | Py d => narrow d
  | Boxed c => c
  end.

(** Python's [+] and [-] on float objects: binary64 arithmetic. *)
Definition py_add (a b : pyobject) : pyobject :=
  Py (fadd cython.binary64 (as_double a) (as_double b)).
Definition py_sub (a b : pyobject) : pyobject :=
  Py (fsub cython.binary64 (as_double a) (as_double b)).

(** Arithmetic on [cython.float] operands. *)
Definition cadd : cfloat -> cfloat -> cfloat :=
  fadd (cython.float CYTH_VEC_COMPILED).
Definition csub : cfloat -> cfloat -> cfloat :=
  fsub (cython.float CYTH_VEC_COMPILED).
Definition cmul : cfloat -> cfloat -> cfloat :=
  fmul (cython.float CYTH_VEC_COMPILED).

(** A numeric literal such as [3.0] or [-500.0] as a [cython.float]. *)
Definition lit (z : Z) : cfloat := of_Z (cython.float CYTH_VEC_COMPILED) z.
End Boundary.

(** Python's [a and b] on booleans: [b] is evaluated only when [a] holds. *)
Definition py_and (a : bool) (b : unit -> bool) : bool :=
  if a then b tt else a.

(** ** The object layout

    Both files declare the same four [cython.float] fields. *)
Record Vec : Type :=
  mkVec { _x : cfloat; _y : cfloat; _z : cfloat; _w : cfloat }.

(** ** Formatted string literals

    An f-string is a sequence of literal pieces and replacement fields
    [{value:spec}], rendered from left to right; a field that cannot be
    rendered with its specification raises, and so does the whole
    literal.  Rendering one float with a format specification is Python's
    built-in [float.__format__], a parameter here. *)
Inductive fpart : Type :=
  | Lit (s : string)
  | Field (value : cfloat) (spec : string).

Section FString.
Variable float_format : cfloat -> string -> option string.

Fixpoint fstring (parts : list fpart) : option string :=
  match parts with
  | [] => Some EmptyString
  | Lit s :: rest =>
      match fstring rest with
      | Some tl => Some (s ++ tl)%string
      | None => None
      end
  | Field v spec :: rest =>
      match float_format v spec with
      | Some s =>
          match fstring rest with
          | Some tl => Some (s ++ tl)%string
          | None => None
          end
      | None => None
      end
  end.
End FString.

(** A rendering of floats that knows only the default rendering of [0.0], which is
    [0.0]: an instance of [float.__format__] small enough to evaluate,
    used to exercise [__format__]. *)
Definition format_zero_only (f : cfloat) (spec : string) : option string :=
  match f, spec with
  | S754_zero false, EmptyString => Some "0.0"%string
  | _, _ => None
  end.

Declare Scope float_scope.

(** ** [vecmath/vec.py], compiled by [build.py]

    Every parameter of this file is declared [cython.float] or [Vec], so
    the methods work on C floats throughout.  Results are built with
    [Vec(x, y, z, w)] from [cython.float] locals, which reach the fields
    unchanged. *)
Module vecmath.
Section Methods.
Variable CYTH_VEC_COMPILED : bool.
Variable float_format : cfloat -> string -> option string.

Local Notation "a + b" := (cadd CYTH_VEC_COMPILED a b) : float_scope.
Local Notation "a - b" := (csub CYTH_VEC_COMPILED a b) : float_scope.
Local Notation "a * b" := (cmul CYTH_VEC_COMPILED a b) : float_scope.
Local Notation "a == b" := (feqb a b) (at level 70) : float_scope.
Local Open Scope float_scope.

(** [__init__(self, x=0.0, y=0.0, z=0.0, w=0.0)]: an argument left out
    is [None]. *)
Definition __init__ (x y z w : option cfloat) : Vec :=
  {| _x := default zero x;
     _y := default zero y;
     _z := default zero z;
     _w := default zero w |}.

(** The call [Vec(x, y, z, w)] with all four arguments. *)
Definition new (x y z w : cfloat) : Vec :=
  __init__ (Some x) (Some y) (Some z) (Some w).

Definition dot (self other : Vec) : Vec :=
  let x := _x self * _x other in
  let y := _y self * _y other in
  let z := _z self * _z other in
  let w := _w self * _w other in
  new x y z w.

Definition add_vec (self other : Vec) : Vec :=
  let x := _x self + _x other in
  let y := _y self + _y other in
  let z := _z self + _z other in
  let w := _w self + _w other in
  new x y z w.

Definition add_scalar (self : Vec) (other : cfloat) : Vec :=
  let x := _x self + other in
  let y := _y self + other in
  let z := _z self + other in
  let w := _w self + other in
  new x y z w.

Definition sub_vec (self other : Vec) : Vec :=
  let x := _x self - _x other in
  let y := _y self - _y other in
  let z := _z self - _z other in
  let w := _w self - _w other in
  new x y z w.

Definition sub_scalar (self : Vec) (other : cfloat) : Vec :=
  let x := _x self - other in
  let y := _y self - other in
  let z := _z self - other in
  let w := _w self - other in
  new x y z w.

(** Properties.  A getter hands the field to Python as a float object
    holding the same number. *)
Definition x (self : Vec) : cfloat := _x self.
Definition y (self : Vec) : cfloat := _y self.
Definition z (self : Vec) : cfloat := _z self.
Definition w (self : Vec) : cfloat := _w self.

Definition set_x (self : Vec) (value : cfloat) : Vec :=
  {| _x := value; _y := _y self; _z := _z self; _w := _w self |}.
Definition set_y (self : Vec) (value : cfloat) : Vec :=
  {| _x := _x self; _y := value; _z := _z self; _w := _w self |}.
Definition set_z (self : Vec) (value : cfloat) : Vec :=
  {| _x := _x self; _y := _y self; _z := value; _w := _w self |}.
Definition set_w (self : Vec) (value : cfloat) : Vec :=
  {| _x := _x self; _y := _y self; _z := _z self; _w := value |}.

Definition __eq__ (self other : Vec) : bool :=
  py_and (x self == x other) (fun _ =>
  py_and (y self == y other) (fun _ =>
  _z self == z other)).

Definition __format__ (self : Vec) (spec : string) : option string :=
  fstring float_format
    [Lit "("; Field (_x self) spec; Lit ", "; Field (_y self) spec;
     Lit ", "; Field (_z self) spec; Lit ", "; Field (_w self) spec;
     Lit ")"].

Definition __str__ (self : Vec) : option string :=
  __format__ self "".
End Methods.
End vecmath.

(** ** [src/vecmath/vec.py], compiled by [setup.py]

    The copy without the [cython.float] declarations on parameters.  Its
    docstrings and the order of its methods differ too, which changes
    nothing here.  Its constructor and setters declare their
    parameters [float], a C [double] that is narrowed when it is stored
    in a field, and [add_scalar] and [sub_scalar] leave [other]
    undeclared: there [self._x + other] is Python's addition of float
    objects, and the sums reach the fields through the constructor. *)
Module src_vecmath.
Section Methods.
Variable CYTH_VEC_COMPILED : bool.
Variable float_format : cfloat -> string -> option string.

Local Notation "a + b" := (cadd CYTH_VEC_COMPILED a b) : float_scope.
Local Notation "a - b" := (csub CYTH_VEC_COMPILED a b) : float_scope.
Local Notation "a * b" := (cmul CYTH_VEC_COMPILED a b) : float_scope.
Local Notation "a == b" := (feqb a b) (at level 70) : float_scope.
Local Open Scope float_scope.

(** [__init__(self, x: float = 0.0, ...)]: each argument is a float
    object, narrowed by the assignment to the field. *)
Definition __init__ (x y z w : option pyobject) : Vec :=
  {| _x := to_cfloat CYTH_VEC_COMPILED (default (Py zero) x);
     _y := to_cfloat CYTH_VEC_COMPILED (default (Py zero) y);
     _z := to_cfloat CYTH_VEC_COMPILED (default (Py zero) z);
     _w := to_cfloat CYTH_VEC_COMPILED (default (Py zero) w) |}.

(** The call [Vec(x, y, z, w)] with all four arguments. *)
Definition new (x y z w : pyobject) : Vec :=
  __init__ (Some x) (Some y) (Some z) (Some w).

Definition dot (self other : Vec) : Vec :=
  let x := _x self * _x other in
  let y := _y self * _y other in
  let z := _z self * _z other in
  let w := _w self * _w other in
  new (Boxed x) (Boxed y) (Boxed z) (Boxed w).

Definition x (self : Vec) : cfloat := _x self.
Definition y (self : Vec) : cfloat := _y self.
Definition z (self : Vec) : cfloat := _z self.
Definition w (self : Vec) : cfloat := _w self.

Definition set_x (self : Vec) (value : pyobject) : Vec :=
  {| _x := to_cfloat CYTH_VEC_COMPILED value;
     _y := _y self; _z := _z self; _w := _w self |}.
Definition set_y (self : Vec) (value : pyobject) : Vec :=
  {| _x := _x self; _y := to_cfloat CYTH_VEC_COMPILED value;
     _z := _z self; _w := _w self |}.
Definition set_z (self : Vec) (value : pyobject) : Vec :=
  {| _x := _x self; _y := _y self;
     _z := to_cfloat CYTH_VEC_COMPILED value; _w := _w self |}.
Definition set_w (self : Vec) (value : pyobject) : Vec :=
  {| _x := _x self; _y := _y self; _z := _z self;
     _w := to_cfloat CYTH_VEC_COMPILED value |}.

Definition add_vec (self other : Vec) : Vec :=
  let x := _x self + _x other in
  let y := _y self + _y other in
  let z := _z self + _z other in
  let w := _w self + _w other in
  new (Boxed x) (Boxed y) (Boxed z) (Boxed w).

Definition add_scalar (self : Vec) (other : pyobject) : Vec :=
  let x := py_add CYTH_VEC_COMPILED (Boxed (_x self)) other in
  let y := py_add CYTH_VEC_COMPILED (Boxed (_y self)) other in
  let z := py_add CYTH_VEC_COMPILED (Boxed (_z self)) other in
  let w := py_add CYTH_VEC_COMPILED (Boxed (_w self)) other in
  new x y z w.

Definition sub_vec (self other : Vec) : Vec :=
  let x := _x self - _x other in
  let y := _y self - _y other in
  let z := _z self - _z other in
  let w := _w self - _w other in
  new (Boxed x) (Boxed y) (Boxed z) (Boxed w).

Definition sub_scalar (self : Vec) (other : pyobject) : Vec :=
  let x := py_sub CYTH_VEC_COMPILED (Boxed (_x self)) other in
  let y := py_sub CYTH_VEC_COMPILED (Boxed (_y self)) other in
  let z := py_sub CYTH_VEC_COMPILED (Boxed (_z self)) other in
  let w := py_sub CYTH_VEC_COMPILED (Boxed (_w self)) other in
  new x y z w.

Definition __eq__ (self other : Vec) : bool :=
  py_and (x self == x other) (fun _ =>
  py_and (y self == y other) (fun _ =>
  _z self == z other)).

Definition __format__ (self : Vec) (spec : string) : option string :=
  fstring float_format
    [Lit "("; Field (_x self) spec; Lit ", "; Field (_y self) spec;
     Lit ", "; Field (_z self) spec; Lit ", "; Field (_w self) spec;
     Lit ")"].

Definition __str__ (self : Vec) : option string :=
  __format__ self "".
End Methods.
End src_vecmath.

(** ** Objects and references

    Python passes vectors by reference.  The store maps a reference to
    the fields of the object it names; a call [Vec(...)] makes a new
    object, a setter overwrites a field of an existing one, and a method
    reads its operands through their references, which may be the same
    ([v.dot(v)]).  A dangling reference has no object: [None]. *)
Module Obj.
Abbreviation ref := nat.
Abbreviation store := (gmap nat Vec).

(** The object a constructor call creates. *)
Definition construct (v : Vec) (h : store) : ref * store :=
  let r := fresh (dom h) in (r, <[r := v]> h).

(** [self.m(other)] for a method that returns [Vec(...)]. *)
Definition call_vec (m : Vec -> Vec -> Vec) (self other : ref) (h : store)
  : option (ref * store) :=
  match h !! self, h !! other with
  | Some a, Some b => Some (construct (m a b) h)
  | _, _ => None
  end.

(** [self.m(s)] for a scalar [s]. *)
Definition call_scalar (m : Vec -> cfloat -> Vec) (self : ref) (s : cfloat)
    (h : store) : option (ref * store) :=
  match h !! self with
  | Some a => Some (construct (m a s) h)
  | None => None
  end.

(** [self.f = value] through a property setter. *)
Definition assign (setter : Vec -> cfloat -> Vec) (self : ref)
    (value : cfloat) (h : store) : option store :=
  match h !! self with
  | Some a => Some (<[self := setter a value]> h)
  | None => None
  end.

(** The outcome [res] of a call on the store [h] is a new object with
    fields [v], and the objects that [self] and [other] name, like every
    object of [h], are as they were. *)
Definition returns_fresh (h : store) (self other : ref)
    (res : option (ref * store)) (v : Vec) : Prop :=
  exists (r : ref) (h' : store),
    res = Some (r, h') /\ h !! r = None /\ h' !! r = Some v
    /\ h' !! self = h !! self /\ h' !! other = h !! other
    /\ forall l : ref, l <> r -> h' !! l = h !! l.

Section Calls.
Variable CYTH_VEC_COMPILED : bool.

Definition dot := call_vec (vecmath.dot CYTH_VEC_COMPILED).
Definition add_vec := call_vec (vecmath.add_vec CYTH_VEC_COMPILED).
Definition sub_vec := call_vec (vecmath.sub_vec CYTH_VEC_COMPILED).
Definition add_scalar := call_scalar (vecmath.add_scalar CYTH_VEC_COMPILED).
Definition sub_scalar := call_scalar (vecmath.sub_scalar CYTH_VEC_COMPILED).
Definition set_x := assign vecmath.set_x.
Definition set_y := assign vecmath.set_y.
Definition set_z := assign vecmath.set_z.
Definition set_w := assign vecmath.set_w.
End Calls.
End Obj.

(** ** Vectors of the tests and of the examples *)

Module examples.

(** [Vec()] *)
Definition origin : Vec := vecmath.__init__ None None None None.

(** [Vec(float('nan'))] *)
Definition nan_x : Vec := vecmath.__init__ (Some S754_nan) None None None.

(** [v = Vec(1.0, 5.0, 6.0)] and [u = Vec(1.0, -5.0, 3.0)] of [test_add],
    compiled. *)
Definition v : Vec :=
  vecmath.__init__ (Some (lit true 1)) (Some (lit true 5))
    (Some (lit true 6)) None.
Definition u : Vec :=
  vecmath.__init__ (Some (lit true 1)) (Some (lit true (-5)))
    (Some (lit true 3)) None.

(** [Vec(float('nan'), float('inf'), 1.0)] *)
Definition special : Vec :=
  vecmath.__init__ (Some S754_nan) (Some (S754_infinity false))
    (Some (lit true 1)) None.

(** A store whose only object is [special]. *)
Definition one_object : gmap nat Vec := {[ 0%nat := special ]}.

(** [Vec(16777216.0)], that is [2^24], compiled. *)
Definition big : Vec :=
  vecmath.__init__ (Some (lit true 16777216)) None None None.

(** The double [1 + 2^-25 = 1.00000002980232238769531250]. *)
Definition above_one : pyfloat := S754_finite false (2 ^ 52 + 2 ^ 27) (-52).

(** [Vec(1 + 2^-23)] and [Vec(1.0)], compiled: their sum [2 + 2^-23]
    is not a binary32 number. *)
Definition odd_one : Vec :=
  vecmath.__init__ (Some (S754_finite false (2 ^ 23 + 1) (-23))) None None
    None.
Definition one : Vec :=
  vecmath.__init__ (Some (lit true 1)) None None None.

(** [Vec(2^-30)], compiled: [1 + 2^-30] is not a binary32 number
    either. *)
Definition tiny : Vec :=
  vecmath.__init__ (Some (S754_finite false (2 ^ 23) (-53))) None None None.

End examples.

(** ** Further notions used in the properties *)

(** A zero of either sign. *)
Definition is_zero (f : spec_float) : bool :=
  match f with S754_zero _ => true | _ => false end.

(** The sign bit; NaN has none. *)
Definition is_negative (f : spec_float) : bool :=
  match f with
  | S754_zero s | S754_infinity s | S754_finite s _ _ => s
  | S754_nan => false
  end.

(** The double [d] is a number of the format [fmt], or it is an
    infinity or NaN. *)
Definition fits (fmt : cython.format) (d : pyfloat) : Prop :=
  valid cython.binary64 d = true
  /\ (is_finite d = true -> representable fmt (F2Q d)).

(** The last steps of [binary_round_aux]: renormalise the rounded
    mantissa and check the exponent. *)
Definition round_finish (prec emax : Z) (s : bool) (m e : Z) : spec_float :=
  let '(mrs, e') := shr_fexp prec emax m e loc_Exact in
  match shr_m mrs with
  | Z0 => S754_zero s
  | Zpos m' => if Z.leb e' (Z.sub emax prec) then S754_finite s m' e'
               else S754_infinity s
  | Zneg _ => S754_nan
  end.

(** Further values of the tests and of the examples. *)
Module more_examples.

(** The scalar [1.5] of [test_add], compiled. *)
Definition scalar : cfloat := S754_finite false 12582912 (-23).

(** The doubles [3.0], [5.0] and [-500.0] of [test_create]. *)
Definition three : pyfloat := lit false 3.
Definition five : pyfloat := lit false 5.
Definition minus_500 : pyfloat := lit false (-500).

(** The double nearest to [0.1]; it is not a binary32 number. *)
Definition tenth : pyfloat := S754_finite false 7205759403792794 (-56).

(** A store with the vectors [v] and [u] of [test_add]. *)
Definition two_objects : gmap nat Vec :=
  {[ 0%nat := examples.v; 1%nat := examples.u ]}.

End more_examples.

(** * Properties *)

(** ** Facts about the float operations *)

Lemma py_and_andb (a : bool) (b : unit -> bool) : py_and a b = a && b tt.
Proof. by destruct a. Qed.

(** [s == s] fails exactly for NaN. *)
Lemma feqb_refl (s : spec_float) : feqb s s = negb (is_nan s).
Proof.
  destruct s as [sg|sg| |sg m e]; [by destruct sg | by destruct sg | done |].
  unfold feqb, SFeqb, SFcompare.
  change (Z.compare e e) with (e ?= e).
  rewrite Z.compare_refl.
  change (Pos.compare_cont Eq m m) with (m ?= m)%positive.
  rewrite Pos.compare_refl. by destruct sg.
Qed.

Lemma fadd_comm (fmt : cython.format) (a b : spec_float) :
  fadd fmt a b = fadd fmt b a.
Proof.
  destruct a as [sa|sa| |sa ma ea], b as [sb|sb| |sb mb eb];
    try reflexivity; try (by destruct sa, sb).
  unfold fadd, SFadd.
  change (Z.min ea eb) with (ea `min` eb).
  change (Z.min eb ea) with (eb `min` ea).
  rewrite (Z.min_comm eb ea). f_equal. apply Z.add_comm.
Qed.

(** *** Rounding never produces NaN *)

Section RoundingSign.
Variables prec emax : Z.

Lemma iter_pos_invariant {A : Type} (P : A -> Prop) (f : A -> A) :
  (forall a, P a -> P (f a)) ->
  forall (n : positive) (a : A), P a -> P (SpecFloat.iter_pos f n a).
Proof.
  intros Hf. induction n as [n IH|n IH|]; intros a Ha; simpl; auto.
Qed.

Lemma shr_1_nonneg (mrs : shr_record) :
  0 <= shr_m mrs -> 0 <= shr_m (shr_1 mrs).
Proof.
  destruct mrs as [m r s]. simpl.
  destruct m as [|[p|p|]|p]; simpl; lia.
Qed.

Lemma shr_nonneg (mrs : shr_record) (e n : Z) :
  0 <= shr_m mrs -> 0 <= shr_m (fst (shr mrs e n)).
Proof.
  intros H. destruct n as [|p|p]; simpl; auto.
  apply (iter_pos_invariant (fun r => 0 <= shr_m r)); auto using shr_1_nonneg.
Qed.

Lemma shr_fexp_nonneg (m e : Z) (l : location) :
  0 <= m -> 0 <= shr_m (fst (shr_fexp prec emax m e l)).
Proof.
  intros H. unfold shr_fexp. apply shr_nonneg.
  by destruct l as [|[]].
Qed.

Lemma round_nearest_even_nonneg (m : Z) (l : location) :
  0 <= m -> 0 <= round_nearest_even m l.
Proof.
  intros H. destruct l as [|[]]; simpl; try lia.
  destruct (Z.even m); lia.
Qed.

Lemma binary_round_aux_not_nan (s : bool) (m e : Z) (l : location) :
  0 <= m -> is_nan (binary_round_aux prec emax s m e l) = false.
Proof.
  intros H. unfold binary_round_aux.
  pose proof (shr_fexp_nonneg m e l H) as H1.
  destruct (shr_fexp prec emax m e l) as [mrs' e'].
  pose proof (shr_fexp_nonneg
                (round_nearest_even (shr_m mrs') (loc_of_shr_record mrs'))
                e' loc_Exact
                (round_nearest_even_nonneg _ _ H1)) as H2.
  destruct (shr_fexp prec emax _ e' loc_Exact) as [mrs'' e''].
  simpl in H2. destruct (shr_m mrs'') as [|p|p]; [done | | lia].
  by destruct (Z.leb e'' (Z.sub emax prec)).
Qed.

Lemma binary_normalize_not_nan (m e : Z) (sz : bool) :
  is_nan (binary_normalize prec emax m e sz) = false.
Proof.
  destruct m as [|p|p]; simpl; [done | |];
    unfold binary_round;
    destruct (shl_align _ _ _) as [mz ez];
    by apply binary_round_aux_not_nan.
Qed.
End RoundingSign.

Lemma fadd_finite_not_nan (fmt : cython.format) (a b : spec_float) :
  is_finite a = true -> is_finite b = true -> is_nan (fadd fmt a b) = false.
Proof.
  destruct a as [sa|sa| |sa ma ea], b as [sb|sb| |sb mb eb];
    try discriminate; intros _ _; try reflexivity.
  - by destruct sa, sb.
  - apply binary_normalize_not_nan.
Qed.

(** ** Rounding is exact on the numbers of the format *)

(** *** Shifts *)

Lemma iter_pos_iter {A : Type} (f : A -> A) (n : positive) (a : A) :
  SpecFloat.iter_pos f n a = Pos.iter f a n.
Proof.
  revert a. induction n as [n IH|n IH|]; intros a; simpl.
  - by rewrite !IH, !Pos.iter_swap.
  - by rewrite !IH.
  - reflexivity.
Qed.

Lemma iter_xO_Z (m k : positive) :
  Zpos (Pos.iter xO m k) = Zpos m * 2 ^ Zpos k.
Proof.
  induction k as [|k IH] using Pos.peano_ind.
  - simpl. lia.
  - rewrite Pos.iter_succ, Pos2Z.inj_xO, IH, Pos2Z.inj_succ, Z.pow_succ_r by lia.
    ring.
Qed.

Lemma digits2_iter_xO (m k : positive) :
  digits2_pos (Pos.iter xO m k) = (digits2_pos m + k)%positive.
Proof.
  induction k as [|k IH] using Pos.peano_ind.
  - simpl. lia.
  - rewrite Pos.iter_succ. simpl. rewrite IH. lia.
Qed.

Lemma shr_iter_xO (m k : positive) :
  SpecFloat.iter_pos shr_1 k
    (Build_shr_record (Zpos (Pos.iter xO m k)) false false)
  = Build_shr_record (Zpos m) false false.
Proof.
  rewrite iter_pos_iter.
  induction k as [|k IH] using Pos.peano_ind.
  - reflexivity.
  - by rewrite Pos.iter_succ_r, Pos.iter_succ.
Qed.

Section Exact.
Variables prec emax : Z.

Lemma canonical_fexp (m : positive) (e : Z) :
  canonical_mantissa prec emax m e = true ->
  fexp prec emax (Zpos (digits2_pos m) + e) = e.
Proof. apply Z.eqb_eq. Qed.

Lemma bounded_canonical (m : positive) (e : Z) :
  bounded prec emax m e = true ->
  canonical_mantissa prec emax m e = true /\ e <= emax - prec.
Proof.
  unfold bounded. rewrite andb_true_iff.
  intros [H1 H2]. split; [done | by apply Z.leb_le].
Qed.

Lemma shr_fexp_canonical (m : positive) (e : Z) :
  canonical_mantissa prec emax m e = true ->
  shr_fexp prec emax (Zpos m) e loc_Exact
  = (Build_shr_record (Zpos m) false false, e).
Proof.
  intros H. unfold shr_fexp. simpl Zdigits2.
  change (Z.add ?a ?b) with (a + b). change (Z.sub ?a ?b) with (a - b).
  rewrite (canonical_fexp _ _ H), Z.sub_diag. reflexivity.
Qed.

Lemma shr_fexp_shifted (m k : positive) (e : Z) :
  canonical_mantissa prec emax m e = true ->
  shr_fexp prec emax (Zpos (Pos.iter xO m k)) (e - Zpos k) loc_Exact
  = (Build_shr_record (Zpos m) false false, e).
Proof.
  intros H. unfold shr_fexp. simpl Zdigits2.
  change (Z.add ?a ?b) with (a + b). change (Z.sub ?a ?b) with (a - b).
  rewrite digits2_iter_xO.
  replace (Zpos (digits2_pos m + k) + (e - Zpos k))
    with (Zpos (digits2_pos m) + e) by lia.
  rewrite (canonical_fexp _ _ H).
  replace (e - (e - Zpos k)) with (Zpos k) by lia.
  unfold shr, shr_record_of_loc. rewrite shr_iter_xO. f_equal.
  change (Z.add ?a ?b) with (a + b). lia.
Qed.

Lemma binary_round_aux_finish (s : bool) (m : positive) (e : Z) :
  bounded prec emax m e = true ->
  (let '(mrs'', e'') :=
     shr_fexp prec emax
       (round_nearest_even (Zpos m) loc_Exact) e loc_Exact in
   match shr_m mrs'' with
   | Z0 => S754_zero s
   | Zpos m => if Z.leb e'' (Z.sub emax prec) then S754_finite s m e''
               else S754_infinity s
   | _ => S754_nan
   end) = S754_finite s m e.
Proof.
  intros Hb. destruct (bounded_canonical _ _ Hb) as [Hc He].
  simpl round_nearest_even. rewrite (shr_fexp_canonical _ _ Hc).
  simpl. change (Z.sub emax prec) with (emax - prec).
  by rewrite (proj2 (Z.leb_le _ _) He).
Qed.

Lemma binary_round_aux_canonical (s : bool) (m : positive) (e : Z) :
  bounded prec emax m e = true ->
  binary_round_aux prec emax s (Zpos m) e loc_Exact = S754_finite s m e.
Proof.
  intros Hb. destruct (bounded_canonical _ _ Hb) as [Hc He].
  unfold binary_round_aux. rewrite (shr_fexp_canonical _ _ Hc).
  by apply binary_round_aux_finish.
Qed.

Lemma binary_round_aux_shifted (s : bool) (m k : positive) (e : Z) :
  bounded prec emax m e = true ->
  binary_round_aux prec emax s (Zpos (Pos.iter xO m k)) (e - Zpos k) loc_Exact
  = S754_finite s m e.
Proof.
  intros Hb. destruct (bounded_canonical _ _ Hb) as [Hc He].
  unfold binary_round_aux. rewrite (shr_fexp_shifted _ _ _ Hc).
  by apply binary_round_aux_finish.
Qed.

(** Rounding a number that the format represents, from whatever
    mantissa and exponent it is given with, returns its representation. *)
Lemma binary_round_exact (s : bool) (p m : positive) (E e : Z) :
  bounded prec emax m e = true ->
  Zpos p * 2 ^ (E - Z.min E e) = Zpos m * 2 ^ (e - Z.min E e) ->
  binary_round prec emax s p E = S754_finite s m e.
Proof.
  intros Hb Hv. destruct (bounded_canonical _ _ Hb) as [Hc He].
  unfold binary_round.
  change (Z.add ?a ?b) with (a + b).
  destruct (Z.lt_trichotomy E e) as [Hlt|[->|Hgt]].
  - rewrite Z.min_l, Z.sub_diag, Z.mul_1_r in Hv by lia.
    set (k := Z.to_pos (e - E)).
    assert (Hk : e - E = Zpos k) by (unfold k; lia).
    rewrite Hk, <- iter_xO_Z in Hv. injection Hv as ->.
    rewrite digits2_iter_xO.
    replace (Zpos (digits2_pos m + k) + E)
      with (Zpos (digits2_pos m) + e) by lia.
    rewrite (canonical_fexp _ _ Hc).
    unfold shl_align. change (Z.sub e E) with (e - E). rewrite Hk.
    replace E with (e - Zpos k) by lia.
    by apply binary_round_aux_shifted.
  - rewrite Z.min_id, Z.sub_diag, !Z.mul_1_r in Hv. injection Hv as ->.
    rewrite (canonical_fexp _ _ Hc).
    unfold shl_align. change (Z.sub e e) with (e - e). rewrite Z.sub_diag.
    by apply binary_round_aux_canonical.
  - rewrite Z.min_r, Z.sub_diag, Z.mul_1_r in Hv by lia.
    set (k := Z.to_pos (E - e)).
    assert (Hk : E - e = Zpos k) by (unfold k; lia).
    rewrite Hk, <- iter_xO_Z in Hv. injection Hv as <-.
    pose proof (canonical_fexp _ _ Hc) as Hf.
    rewrite digits2_iter_xO in Hf.
    replace (Zpos (digits2_pos p) + E)
      with (Zpos (digits2_pos p + k) + e) by lia.
    rewrite Hf.
    unfold shl_align. change (Z.sub e E) with (e - E).
    replace (e - E) with (Zneg k) by lia.
    by apply binary_round_aux_canonical.
Qed.
End Exact.

(** *** Dyadic values *)

Lemma Qpow2_nonzero (e : Z) : ~ (2 ^ e == 0)%Q.
Proof. apply Qpower_not_0. discriminate. Qed.

Lemma dyadic_scale (M e m : Z) :
  m <= e -> (inject_Z M * 2 ^ e == inject_Z (M * 2 ^ (e - m)) * 2 ^ m)%Q.
Proof.
  intros H. rewrite inject_Z_mult, Zpower_Qpower by lia.
  change (inject_Z 2) with 2%Q.
  rewrite <- Qmult_assoc, <- Qpower_plus by discriminate.
  by replace (e - m + m) with e by lia.
Qed.

Lemma dyadic_eq (M1 M2 e1 e2 : Z) :
  (inject_Z M1 * 2 ^ e1 == inject_Z M2 * 2 ^ e2)%Q ->
  M1 * 2 ^ (e1 - Z.min e1 e2) = M2 * 2 ^ (e2 - Z.min e1 e2).
Proof.
  intros H.
  rewrite (dyadic_scale M1 e1 (Z.min e1 e2)) in H by lia.
  rewrite (dyadic_scale M2 e2 (Z.min e1 e2)) in H by lia.
  apply Qmult_inj_r in H; [| apply Qpow2_nonzero].
  by apply inject_Z_injective.
Qed.

Lemma dyadic_zero (M e : Z) : (inject_Z M * 2 ^ e == 0)%Q -> M = 0.
Proof.
  intros H. apply Qmult_integral in H as [H|H].
  - by apply (inject_Z_injective M 0).
  - by apply Qpow2_nonzero in H.
Qed.

Section ExactNormalize.
Variables prec emax : Z.

Lemma binary_normalize_exact (M E : Z) (sz : bool) (r : spec_float) :
  valid_binary prec emax r = true ->
  (match r with S754_zero _ | S754_finite _ _ _ => True | _ => False end) ->
  (F2Q r == inject_Z M * 2 ^ E)%Q ->
  binary_normalize prec emax M E sz
  = match r with S754_zero _ => S754_zero sz | _ => r end.
Proof.
  intros Hv Hfin Hq. destruct r as [s|s| |s m e]; try done.
  - simpl in Hq. symmetry in Hq. apply dyadic_zero in Hq. by subst M.
  - simpl in Hv, Hq. symmetry in Hq. apply dyadic_eq in Hq.
    assert (0 < 2 ^ (E - Z.min E e)) by (apply Z.pow_pos_nonneg; lia).
    assert (0 < 2 ^ (e - Z.min E e)) by (apply Z.pow_pos_nonneg; lia).
    destruct M as [|p|p], s; simpl in Hq; try lia; simpl.
    + by apply binary_round_exact.
    + apply binary_round_exact; [done | lia].
Qed.
End ExactNormalize.

Lemma shl_align_fst (m : positive) (e ez : Z) :
  ez <= e -> Zpos (fst (shl_align m e ez)) = Zpos m * 2 ^ (e - ez).
Proof.
  intros H. unfold shl_align. change (Z.sub ez e) with (ez - e).
  destruct (ez - e) as [|d|d] eqn:Hd; simpl fst.
  - replace (e - ez) with 0 by lia. lia.
  - lia.
  - rewrite iter_xO_Z. by replace (e - ez) with (Zpos d) by lia.
Qed.

Lemma cond_Zopp_mul (s : bool) (a b : Z) :
  cond_Zopp s (a * b) = cond_Zopp s a * b.
Proof. destruct s; simpl; lia. Qed.

Lemma aligned_value (s : bool) (m : positive) (e ez : Z) :
  ez <= e ->
  (inject_Z (cond_Zopp s (Zpos (fst (shl_align m e ez)))) * 2 ^ ez
   == F2Q (S754_finite s m e))%Q.
Proof.
  intros H. rewrite shl_align_fst, cond_Zopp_mul by done.
  simpl. by rewrite <- dyadic_scale.
Qed.

Section AddSub.
Variables prec emax : Z.

Lemma SFadd_finite_value (sa sb : bool) (ma mb : positive) (ea eb : Z) :
  exists M : Z,
    SFadd prec emax (S754_finite sa ma ea) (S754_finite sb mb eb)
    = binary_normalize prec emax M (Z.min ea eb) false
    /\ (inject_Z M * 2 ^ Z.min ea eb
        == F2Q (S754_finite sa ma ea) + F2Q (S754_finite sb mb eb))%Q.
Proof.
  eexists. split; [reflexivity |].
  change (Z.add ?a ?b) with (a + b).
  rewrite inject_Z_plus, Qmult_plus_distr_l.
  rewrite !aligned_value by lia. reflexivity.
Qed.

Lemma SFsub_finite_value (sa sb : bool) (ma mb : positive) (ea eb : Z) :
  exists M : Z,
    SFsub prec emax (S754_finite sa ma ea) (S754_finite sb mb eb)
    = binary_normalize prec emax M (Z.min ea eb) false
    /\ (inject_Z M * 2 ^ Z.min ea eb
        == F2Q (S754_finite sa ma ea) - F2Q (S754_finite sb mb eb))%Q.
Proof.
  eexists. split; [reflexivity |].
  change (Z.sub ?a ?b) with (a - b).
  unfold Z.sub at 1. rewrite inject_Z_plus, inject_Z_opp.
  unfold Qminus. rewrite Qmult_plus_distr_l.
  rewrite <- !aligned_value with (ez := Z.min ea eb) by lia.
  ring.
Qed.
End AddSub.

Lemma F2Q_negate (s : bool) (m : positive) (e : Z) :
  (F2Q (S754_finite (negb s) m e) == - F2Q (S754_finite s m e))%Q.
Proof.
  simpl. generalize (2 ^ e)%Q. intros q.
  destruct s; simpl cond_Zopp;
    change (Z.opp (Zpos m)) with (- Zpos m); rewrite inject_Z_opp; ring.
Qed.

Section RoundTrip.
Variable fmt : cython.format.
Local Abbreviation prec := (cython.prec fmt).
Local Abbreviation emax := (cython.emax fmt).

Lemma finite_self_normal (a : spec_float) (s : bool) (m : positive) (e : Z) :
  a = S754_finite s m e -> valid fmt a = true ->
  binary_normalize prec emax (cond_Zopp s (Zpos m)) e false = a.
Proof.
  intros -> Hv.
  by rewrite (binary_normalize_exact _ _ _ _ _ (S754_finite s m e)).
Qed.

(** When the exact sum of two floats is a float, subtracting the second
    from the computed sum gives back the first (up to the sign of a
    zero). *)
Lemma fsub_fadd_exact (a b : spec_float) :
  exact_sum fmt a b -> feqb (fsub fmt (fadd fmt a b) b) a = true.
Proof.
  intros (Hva & Hvb & Hfa & Hfb & r & Hvr & Hfr & Hr).
  unfold fadd, fsub, valid in *.
  destruct a as [sa|sa| |sa ma ea]; try discriminate;
    destruct b as [sb|sb| |sb mb eb]; try discriminate.
  - by destruct sa, sb.
  - change (SFadd prec emax (S754_zero sa) (S754_finite sb mb eb))
      with (S754_finite sb mb eb).
    destruct (SFsub_finite_value prec emax sb sb mb mb eb eb)
      as (M & -> & HM).
    assert (M = 0) as ->.
    { apply (dyadic_zero M (Z.min eb eb)). rewrite HM. apply Qplus_opp_r. }
    reflexivity.
  - change (SFsub prec emax
              (SFadd prec emax (S754_finite sa ma ea) (S754_zero sb))
              (S754_zero sb))
      with (S754_finite sa ma ea).
    by rewrite feqb_refl.
  - destruct (SFadd_finite_value prec emax sa sb ma mb ea eb)
      as (M & -> & HM).
    rewrite (binary_normalize_exact _ _ M _ false r); try done.
    2: { by destruct r. }
    2: { by rewrite Hr, HM. }
    destruct r as [sr|sr| |sr mr er]; try discriminate.
    + (* the sum is zero: [a] is [-b] *)
      change (SFsub prec emax (S754_zero false) (S754_finite sb mb eb))
        with (S754_finite (negb sb) mb eb).
      assert (S754_finite (negb sb) mb eb = S754_finite sa ma ea) as ->.
      { rewrite <- (finite_self_normal (S754_finite sa ma ea) sa ma ea)
          by done.
        rewrite (binary_normalize_exact _ _ _ _ _
                   (S754_finite (negb sb) mb eb)); try done.
        rewrite F2Q_negate.
        change (inject_Z (cond_Zopp sa (Zpos ma)) * 2 ^ ea)%Q
          with (F2Q (S754_finite sa ma ea)).
        simpl (F2Q (S754_zero sr)) in Hr.
        set (qa := F2Q (S754_finite sa ma ea)) in *.
        set (qb := F2Q (S754_finite sb mb eb)) in *.
        rewrite <- (Qplus_0_r (- qb)), Hr. ring. }
      by rewrite feqb_refl.
    + destruct (SFsub_finite_value prec emax sr sb mr mb er eb)
        as (M' & -> & HM').
      rewrite (binary_normalize_exact _ _ M' _ false (S754_finite sa ma ea));
        try done.
      * by rewrite feqb_refl.
      * rewrite HM', Hr. ring.
Qed.

(** In that case the computed sum is the exact sum. *)
Lemma fadd_exact_value (a b : spec_float) :
  exact_sum fmt a b -> (F2Q (fadd fmt a b) == F2Q a + F2Q b)%Q.
Proof.
  intros (Hva & Hvb & Hfa & Hfb & r & Hvr & Hfr & Hr).
  unfold fadd, valid in *.
  destruct a as [sa|sa| |sa ma ea]; try discriminate;
    destruct b as [sb|sb| |sb mb eb]; try discriminate.
  - by destruct sa, sb.
  - symmetry. apply Qplus_0_l.
  - symmetry. apply Qplus_0_r.
  - destruct (SFadd_finite_value prec emax sa sb ma mb ea eb)
      as (M & -> & HM).
    rewrite (binary_normalize_exact _ _ M _ false r); try done.
    + rewrite <- Hr. by destruct r.
    + by destruct r.
    + by rewrite Hr, HM.
Qed.
End RoundTrip.

(** ** Equality *)

Section Equality.
Import vecmath.
Variable CYTH_VEC_COMPILED : bool.
Local Abbreviation n := (lit CYTH_VEC_COMPILED).

Lemma eq_unfold (a b : Vec) :
  __eq__ a b = feqb (x a) (x b) && feqb (y a) (y b) && feqb (z a) (z b).
Proof.
  unfold __eq__. rewrite !py_and_andb. apply andb_assoc.
Qed.

(** C1. [a == b] is true exactly when the x, the y and the z components
    compare equal; the w components have no part in it:
    [Vec(1,2,3,10) == Vec(1,2,3,999)], while [Vec(1,2,3,0)] and
    [Vec(1,2,4,0)] differ. *)
Theorem eq_compares_xyz_only :
  (forall a b : Vec,
      __eq__ a b = true <->
      feqb (x a) (x b) = true /\ feqb (y a) (y b) = true
      /\ feqb (z a) (z b) = true)
  /\ (forall (a b : Vec) (wa wb : cfloat),
        __eq__ (set_w a wa) (set_w b wb) = __eq__ a b)
  /\ __eq__ (new (n 1) (n 2) (n 3) (n 10)) (new (n 1) (n 2) (n 3) (n 999))
     = true
  /\ __eq__ (new (n 1) (n 2) (n 3) (n 0)) (new (n 1) (n 2) (n 4) (n 0))
     = false.
Proof.
  split; [|split].
  - intros a b. rewrite eq_unfold, !andb_true_iff. tauto.
  - intros a b wa wb. by rewrite !eq_unfold.
  - destruct CYTH_VEC_COMPILED; split; vm_compute; reflexivity.
Qed.

(** C10. [v == v] holds exactly when none of the x, y and z components
    is NaN; a NaN in w does not matter. *)
Theorem eq_reflexive_iff_no_nan :
  (forall v : Vec,
      __eq__ v v = true <->
      is_nan (x v) = false /\ is_nan (y v) = false /\ is_nan (z v) = false)
  /\ (forall v : Vec,
        __eq__ (set_w v S754_nan) (set_w v S754_nan) = true <->
        is_nan (x v) = false /\ is_nan (y v) = false
        /\ is_nan (z v) = false)
  /\ __eq__ (new (n 1) (n 2) (n 3) S754_nan) (new (n 1) (n 2) (n 3) S754_nan)
     = true.
Proof.
  assert (Hiff : forall v : Vec,
    __eq__ v v = true <->
    is_nan (x v) = false /\ is_nan (y v) = false /\ is_nan (z v) = false).
  { intros v. rewrite eq_unfold, !feqb_refl, !andb_true_iff,
      !negb_true_iff. tauto. }
  split; [exact Hiff | split].
  - intros v. apply (Hiff (set_w v S754_nan)).
  - destruct CYTH_VEC_COMPILED; vm_compute; reflexivity.
Qed.
End Equality.

(** ** Construction and arithmetic, component by component *)

Section Components.
Import vecmath.
Variable CYTH_VEC_COMPILED : bool.
Local Abbreviation n := (lit CYTH_VEC_COMPILED).


(** C2. [u.dot(v)] is a vector, the product taken component by
    component; [Vec(100).dot(Vec(100))] has [x = 10000] and zeros
    elsewhere. *)
Theorem dot_is_componentwise_product :
  (forall u v : Vec,
      x (dot CYTH_VEC_COMPILED u v) = cmul CYTH_VEC_COMPILED (x u) (x v)
      /\ y (dot CYTH_VEC_COMPILED u v) = cmul CYTH_VEC_COMPILED (y u) (y v)
      /\ z (dot CYTH_VEC_COMPILED u v) = cmul CYTH_VEC_COMPILED (z u) (z v)
      /\ w (dot CYTH_VEC_COMPILED u v) = cmul CYTH_VEC_COMPILED (w u) (w v))
  /\ dot CYTH_VEC_COMPILED (__init__ (Some (n 100)) None None None)
                           (__init__ (Some (n 100)) None None None)
     = mkVec (n 10000) (n 0) (n 0) (n 0).
Proof.
  split.
  - intros [ux uy uz uw] [vx vy vz vw]. cbn. auto.
  - destruct CYTH_VEC_COMPILED; vm_compute; reflexivity.
Qed.

(** C5. [v.add_scalar(s)] adds [s] to each of the four components. *)
Theorem add_scalar_componentwise (v : Vec) (s : cfloat) :
  x (add_scalar CYTH_VEC_COMPILED v s) = cadd CYTH_VEC_COMPILED (x v) s
  /\ y (add_scalar CYTH_VEC_COMPILED v s) = cadd CYTH_VEC_COMPILED (y v) s
  /\ z (add_scalar CYTH_VEC_COMPILED v s) = cadd CYTH_VEC_COMPILED (z v) s
  /\ w (add_scalar CYTH_VEC_COMPILED v s) = cadd CYTH_VEC_COMPILED (w v) s.
Proof. destruct v; cbn; auto. Qed.
End Components.

(** ** Arithmetic does not touch its operands *)

Section Frame.
Variable CYTH_VEC_COMPILED : bool.

Lemma construct_fresh (h : Obj.store) (self other : Obj.ref) (v : Vec) :
  is_Some (h !! self) -> is_Some (h !! other) ->
  Obj.returns_fresh h self other (Some (Obj.construct v h)) v.
Proof.
  intros Hself Hother. unfold Obj.construct.
  set (r := fresh (dom h)).
  assert (Hr : h !! r = None)
    by apply (not_elem_of_dom (D := gset nat)), is_fresh.
  assert (Hne : forall l : nat, is_Some (h !! l) -> r <> l).
  { intros l [u Hu] ->. congruence. }
  exists r, (<[r := v]> h). repeat split; auto.
  - apply lookup_insert_eq.
  - apply lookup_insert_ne; auto.
  - apply lookup_insert_ne; auto.
  - intros l Hl. apply lookup_insert_ne; auto.
Qed.

Lemma call_vec_fresh (m : Vec -> Vec -> Vec) (h : Obj.store)
    (self other : Obj.ref) (a b : Vec) :
  h !! self = Some a -> h !! other = Some b ->
  Obj.returns_fresh h self other (Obj.call_vec m self other h) (m a b).
Proof.
  intros Ha Hb. unfold Obj.call_vec. rewrite Ha, Hb.
  apply construct_fresh; rewrite ?Ha, ?Hb; eauto.
Qed.

Lemma call_scalar_fresh (m : Vec -> cfloat -> Vec) (h : Obj.store)
    (self : Obj.ref) (a : Vec) (s : cfloat) :
  h !! self = Some a ->
  Obj.returns_fresh h self self (Obj.call_scalar m self s h) (m a s).
Proof.
  intros Ha. unfold Obj.call_scalar. rewrite Ha.
  apply construct_fresh; rewrite Ha; eauto.
Qed.

(** A setter, by contrast, changes the object it is called on. *)
Lemma set_x_overwrites (h : Obj.store) (self : Obj.ref) (a : Vec)
    (value : cfloat) :
  h !! self = Some a ->
  exists h' : Obj.store,
    Obj.set_x self value h = Some h'
    /\ h' !! self = Some (vecmath.set_x a value).
Proof.
  intros Ha. unfold Obj.set_x, Obj.assign. rewrite Ha.
  eexists. split; [reflexivity | apply lookup_insert_eq].
Qed.

(** C4. Each of [add_vec], [add_scalar], [sub_vec], [sub_scalar] and
    [dot] returns a newly created vector and leaves the fields of its
    operands as they were, whatever floats they hold and also when both
    operands are one object. *)
Theorem arithmetic_returns_fresh_vector
    (h : Obj.store) (self other : Obj.ref) (a b : Vec) (s : cfloat) :
  h !! self = Some a -> h !! other = Some b ->
  Obj.returns_fresh h self other
    (Obj.add_vec CYTH_VEC_COMPILED self other h)
    (vecmath.add_vec CYTH_VEC_COMPILED a b)
  /\ Obj.returns_fresh h self self
       (Obj.add_scalar CYTH_VEC_COMPILED self s h)
       (vecmath.add_scalar CYTH_VEC_COMPILED a s)
  /\ Obj.returns_fresh h self other
       (Obj.sub_vec CYTH_VEC_COMPILED self other h)
       (vecmath.sub_vec CYTH_VEC_COMPILED a b)
  /\ Obj.returns_fresh h self self
       (Obj.sub_scalar CYTH_VEC_COMPILED self s h)
       (vecmath.sub_scalar CYTH_VEC_COMPILED a s)
  /\ Obj.returns_fresh h self other
       (Obj.dot CYTH_VEC_COMPILED self other h)
       (vecmath.dot CYTH_VEC_COMPILED a b).
Proof.
  intros Ha Hb.
  repeat split;
    first [ by apply call_vec_fresh | by apply call_scalar_fresh ].
Qed.
End Frame.

Lemma arithmetic_returns_fresh_vector_witness :
  examples.one_object !! 0%nat = Some examples.special
  /\ Obj.returns_fresh examples.one_object 0%nat 0%nat
       (Obj.dot true 0%nat 0%nat examples.one_object)
       (vecmath.dot true examples.special examples.special).
Proof.
  split; [reflexivity |].
  apply (arithmetic_returns_fresh_vector true examples.one_object
           0%nat 0%nat examples.special examples.special S754_nan);
    reflexivity.
Defined.

(** ** Formatting *)

Section Formatting.
Import vecmath.
Variable float_format : cfloat -> string -> option string.

Lemma string_app_assoc (a b c : string) :
  ((a ++ b) ++ c = a ++ (b ++ c))%string.
Proof.
  induction a as [|ch a IH]; [reflexivity |].
  change (String ch ((a ++ b) ++ c) = String ch (a ++ (b ++ c)))%string.
  by f_equal.
Qed.

Lemma fstring_lit (s : string) (rest : list fpart) :
  fstring float_format (Lit s :: rest)
  = (fun tl => (s ++ tl)%string) <$> fstring float_format rest.
Proof. cbn. by destruct (fstring float_format rest). Qed.

Lemma fstring_field (v : cfloat) (spec s : string) (rest : list fpart) :
  float_format v spec = Some s ->
  fstring float_format (Field v spec :: rest)
  = (fun tl => (s ++ tl)%string) <$> fstring float_format rest.
Proof. intros H. cbn. rewrite H. by destruct (fstring float_format rest). Qed.

Lemma fstring_field_fails (v : cfloat) (spec : string)
    (pre rest : list fpart) :
  float_format v spec = None ->
  fstring float_format (pre ++ Field v spec :: rest) = None.
Proof.
  intros H. induction pre as [|[s|u sp] pre IH]; cbn.
  - by rewrite H.
  - by rewrite IH.
  - rewrite IH. by destruct (float_format u sp).
Qed.

(** C8. [format(v, spec)] is the four components, each rendered with
    [spec], joined by [", "] and put in parentheses; [str(v)] is
    [format(v, spec)] for the empty [spec].  (When a component cannot be
    rendered with [spec], there is no string.) *)
Theorem format_joins_rendered_components (v : Vec) (spec : string) :
  (forall X Y Z W : string,
      float_format (x v) spec = Some X -> float_format (y v) spec = Some Y ->
      float_format (z v) spec = Some Z -> float_format (w v) spec = Some W ->
      __format__ float_format v spec
      = Some ("(" ++ String.concat ", " [X; Y; Z; W] ++ ")")%string)
  /\ ((float_format (x v) spec = None \/ float_format (y v) spec = None
       \/ float_format (z v) spec = None \/ float_format (w v) spec = None) ->
      __format__ float_format v spec = None)
  /\ __str__ float_format v = __format__ float_format v EmptyString.
Proof.
  split; [|split].
  - intros X Y Z W HX HY HZ HW. unfold __format__.
    rewrite fstring_lit, (fstring_field _ _ X) by exact HX.
    rewrite fstring_lit, (fstring_field _ _ Y) by exact HY.
    rewrite fstring_lit, (fstring_field _ _ Z) by exact HZ.
    rewrite fstring_lit, (fstring_field _ _ W) by exact HW.
    rewrite fstring_lit. cbn.
    by rewrite !string_app_assoc.
  - unfold __format__.
    intros [H|[H|[H|H]]].
    + by apply (fstring_field_fails _ _ [Lit "("]).
    + by apply (fstring_field_fails _ _ [Lit "("; Field _ _; Lit ", "]).
    + by apply (fstring_field_fails _ _
                  [Lit "("; Field _ _; Lit ", "; Field _ _; Lit ", "]).
    + by apply (fstring_field_fails _ _
                  [Lit "("; Field _ _; Lit ", "; Field _ _; Lit ", ";
                   Field _ _; Lit ", "]).
  - reflexivity.
Qed.
End Formatting.

Lemma format_joins_rendered_components_witness :
  format_zero_only (vecmath.x examples.origin) EmptyString
  = Some "0.0"%string
  /\ vecmath.__format__ format_zero_only examples.origin EmptyString
     = Some "(0.0, 0.0, 0.0, 0.0)"%string.
Proof.
  split; [reflexivity |].
  apply (proj1 (format_joins_rendered_components format_zero_only
                  examples.origin EmptyString)
           "0.0" "0.0" "0.0" "0.0")%string; reflexivity.
Defined.

(** ** Commutativity of [add_vec] *)

Section Commutativity.
Import vecmath.
Variable CYTH_VEC_COMPILED : bool.

Lemma add_vec_comm (a b : Vec) :
  add_vec CYTH_VEC_COMPILED a b = add_vec CYTH_VEC_COMPILED b a.
Proof.
  unfold add_vec, new, __init__, cadd. cbn.
  f_equal; apply fadd_comm.
Qed.

(** C6, as amended.  [a.add_vec(b)] and [b.add_vec(a)] have the same
    four components; they compare equal exactly when none of the x, y and
    z sums is NaN, which is so whenever the x, y and z components of [a]
    and [b] are finite. *)
Theorem add_vec_commutes_unless_nan (a b : Vec) :
  add_vec CYTH_VEC_COMPILED a b = add_vec CYTH_VEC_COMPILED b a
  /\
  (__eq__ (add_vec CYTH_VEC_COMPILED a b) (add_vec CYTH_VEC_COMPILED b a)
   = true <->
   is_nan (x (add_vec CYTH_VEC_COMPILED a b)) = false
   /\ is_nan (y (add_vec CYTH_VEC_COMPILED a b)) = false
   /\ is_nan (z (add_vec CYTH_VEC_COMPILED a b)) = false)
  /\ (is_finite (x a) = true -> is_finite (y a) = true ->
      is_finite (z a) = true -> is_finite (x b) = true ->
      is_finite (y b) = true -> is_finite (z b) = true ->
      __eq__ (add_vec CYTH_VEC_COMPILED a b) (add_vec CYTH_VEC_COMPILED b a)
      = true).
Proof.
  assert (Hiff :
    __eq__ (add_vec CYTH_VEC_COMPILED a b) (add_vec CYTH_VEC_COMPILED b a)
    = true <->
    is_nan (x (add_vec CYTH_VEC_COMPILED a b)) = false
    /\ is_nan (y (add_vec CYTH_VEC_COMPILED a b)) = false
    /\ is_nan (z (add_vec CYTH_VEC_COMPILED a b)) = false).
  { rewrite <- (add_vec_comm a b).
    rewrite eq_unfold, !feqb_refl, !andb_true_iff, !negb_true_iff. tauto. }
  split; [apply add_vec_comm | split; [exact Hiff |]].
  intros Hxa Hya Hza Hxb Hyb Hzb. apply Hiff.
  destruct a, b; cbn in *. repeat split; by apply fadd_finite_not_nan.
Qed.
End Commutativity.

(** C6 as stated fails on a NaN component: [Vec(nan) + Vec()] has a NaN
    in x either way round, and NaN is not equal to itself. *)
Lemma add_vec_commutes_nan_counterexample :
  vecmath.__eq__ (vecmath.add_vec true examples.nan_x examples.origin)
                 (vecmath.add_vec true examples.origin examples.nan_x)
  = false.
Proof. vm_compute. reflexivity. Qed.

Lemma add_vec_commutes_unless_nan_witness :
  is_finite (vecmath.x examples.v) = true
  /\ vecmath.__eq__ (vecmath.add_vec true examples.v examples.u)
                    (vecmath.add_vec true examples.u examples.v)
     = true.
Proof.
  split; [reflexivity |].
  apply (proj2 (proj2 (add_vec_commutes_unless_nan true examples.v
                         examples.u)));
    reflexivity.
Defined.

(** ** [sub_vec] after [add_vec] *)

Section RoundTripVec.
Import vecmath.
Variable CYTH_VEC_COMPILED : bool.
Local Abbreviation fmt := (cython.float CYTH_VEC_COMPILED).

(** C7. Whenever the sums of the x, of the y and of the z components of
    [a] and [b] are floats of the format, [a.add_vec(b).sub_vec(b)]
    equals [a].  The examples after the theorem show that the condition
    cannot be dropped, and that it is sufficient, not necessary. *)
Theorem sub_vec_undoes_add_vec (a b : Vec) :
  exact_sum fmt (x a) (x b) -> exact_sum fmt (y a) (y b) ->
  exact_sum fmt (z a) (z b) ->
  __eq__ (sub_vec CYTH_VEC_COMPILED (add_vec CYTH_VEC_COMPILED a b) b) a
  = true.
Proof.
  intros Hx Hy Hz. rewrite eq_unfold.
  destruct a as [ax ay az aw], b as [bx by' bz bw]. cbn in *.
  unfold csub, cadd.
  by rewrite !fsub_fadd_exact.
Qed.
End RoundTripVec.

Lemma exact_sum_examples :
  exact_sum cython.binary32 (vecmath.x examples.v) (vecmath.x examples.u)
  /\ exact_sum cython.binary32 (vecmath.y examples.v) (vecmath.y examples.u)
  /\ exact_sum cython.binary32 (vecmath.z examples.v) (vecmath.z examples.u).
Proof.
  repeat split; try reflexivity.
  - exists (lit true 2). repeat split; vm_compute; reflexivity.
  - exists zero. repeat split; vm_compute; reflexivity.
  - exists (lit true 9). repeat split; vm_compute; reflexivity.
Defined.

Lemma sub_vec_undoes_add_vec_witness :
  exact_sum cython.binary32 (vecmath.x examples.v) (vecmath.x examples.u)
  /\ vecmath.__eq__
       (vecmath.sub_vec true (vecmath.add_vec true examples.v examples.u)
          examples.u)
       examples.v
     = true.
Proof.
  split; [apply exact_sum_examples |].
  apply (sub_vec_undoes_add_vec true examples.v examples.u);
    apply exact_sum_examples.
Defined.

(** The condition matters: [1 + 2^-23] plus [1] rounds to [2], and
    [2 - 1] is not [1 + 2^-23]. *)
Example sub_vec_after_rounded_add :
  vecmath.__eq__
    (vecmath.sub_vec true
       (vecmath.add_vec true examples.odd_one examples.one) examples.one)
    examples.odd_one
  = false.
Proof. vm_compute. reflexivity. Qed.

(** Equality can also hold when a sum was rounded: [1 + 2^-30] rounds to
    [1], and [1 - 2^-30] rounds to [1] again. *)
Example sub_vec_after_rounded_add_may_hold :
  vecmath.__eq__
    (vecmath.sub_vec true
       (vecmath.add_vec true examples.one examples.tiny) examples.tiny)
    examples.one
  = true
  /\ valid cython.binary32 (vecmath.x examples.tiny) = true
  /\ ~ exact_sum cython.binary32 (vecmath.x examples.one)
        (vecmath.x examples.tiny).
Proof.
  split; [vm_compute; reflexivity | split; [reflexivity |]].
  intros H. apply fadd_exact_value in H. vm_compute in H. discriminate H.
Qed.

(** * Further properties *)

(** ** More on equality *)

Lemma feqb_true_iff (a b : spec_float) :
  feqb a b = true <->
  (is_zero a = true /\ is_zero b = true) \/ (a = b /\ is_nan a = false).
Proof.
  destruct a as [sa|sa| |sa ma ea], b as [sb|sb| |sb mb eb];
    try (destruct sa); try (destruct sb); cbn;
    try (split; [discriminate | intros [[? ?]|[? ?]]; discriminate]);
    try (split; [auto | reflexivity]);
    try (split; [right; split; reflexivity | reflexivity]).
  all: change (Z.compare ea eb) with (ea ?= eb);
       change (Pos.compare_cont Eq ma mb) with (ma ?= mb)%positive;
       destruct (Z.compare_spec ea eb) as [->|He|He];
       destruct (Pos.compare_spec ma mb) as [->|Hm|Hm]; cbn;
       split; try discriminate; try (intros _; right; split; reflexivity);
       try (intros [[? ?]|[[= ] ?]]; (discriminate || lia)).
Qed.

Lemma feqb_sym (a b : spec_float) : feqb a b = feqb b a.
Proof.
  apply eq_iff_eq_true. rewrite !feqb_true_iff.
  split; (intros [[H1 H2]|[H1 H2]]; [left; by split | right; subst; by split]).
Qed.

Lemma feqb_trans (a b c : spec_float) :
  feqb a b = true -> feqb b c = true -> feqb a c = true.
Proof.
  rewrite !feqb_true_iff.
  intros [[Ha Hb]|[-> Ha]] [[Hb' Hc]|[-> Hb']]; auto.
Qed.

Section EqualityRelation.
Import vecmath.

(** X1. [==] on vectors is symmetric. *)
Theorem eq_symmetric (a b : Vec) : __eq__ a b = __eq__ b a.
Proof.
  rewrite !eq_unfold.
  by rewrite (feqb_sym (x a)), (feqb_sym (y a)), (feqb_sym (z a)).
Qed.

(** X2. [==] on vectors is transitive. *)
Theorem eq_transitive (a b c : Vec) :
  __eq__ a b = true -> __eq__ b c = true -> __eq__ a c = true.
Proof.
  rewrite !eq_unfold, !andb_true_iff.
  intros [[Hx Hy] Hz] [[Hx' Hy'] Hz'].
  repeat split; eauto using feqb_trans.
Qed.

(** X3. Vectors that compare equal have, in x, y and z, either the same
    float, which is not NaN, or two zeros of any signs; so equal vectors
    need not be identical: [Vec(0.0) == Vec(-0.0)]. *)
Theorem eq_true_components (a b : Vec) :
  __eq__ a b = true <->
  ((is_zero (x a) = true /\ is_zero (x b) = true)
   \/ (x a = x b /\ is_nan (x a) = false))
  /\ ((is_zero (y a) = true /\ is_zero (y b) = true)
      \/ (y a = y b /\ is_nan (y a) = false))
  /\ ((is_zero (z a) = true /\ is_zero (z b) = true)
      \/ (z a = z b /\ is_nan (z a) = false)).
Proof.
  rewrite eq_unfold, !andb_true_iff, !feqb_true_iff. tauto.
Qed.
End EqualityRelation.

Lemma eq_transitive_witness :
  vecmath.__eq__ examples.origin
    (vecmath.__init__ (Some (S754_zero true)) None None None) = true
  /\ vecmath.__eq__ examples.origin examples.origin = true.
Proof.
  split; [reflexivity |].
  apply (eq_transitive examples.origin
           (vecmath.__init__ (Some (S754_zero true)) None None None)
           examples.origin); reflexivity.
Defined.

(** ** More on the arithmetic *)

Lemma fmul_comm (fmt : cython.format) (a b : spec_float) :
  fmul fmt a b = fmul fmt b a.
Proof.
  destruct a as [sa|sa| |sa ma ea], b as [sb|sb| |sb mb eb];
    try reflexivity; unfold fmul, SFmul; rewrite 1?(xorb_comm sa sb);
    try reflexivity.
  change (Z.add ea eb) with (ea + eb). change (Z.add eb ea) with (eb + ea).
  by rewrite (Pos.mul_comm ma mb), (Z.add_comm ea eb).
Qed.

Lemma fadd_nan (fmt : cython.format) (a b : spec_float) :
  is_nan a || is_nan b = true -> is_nan (fadd fmt a b) = true.
Proof. destruct a as [[]|[]| |[]], b as [[]|[]| |[]]; by cbn. Qed.

Lemma fsub_nan (fmt : cython.format) (a b : spec_float) :
  is_nan a || is_nan b = true -> is_nan (fsub fmt a b) = true.
Proof. destruct a as [[]|[]| |[]], b as [[]|[]| |[]]; by cbn. Qed.

Lemma fmul_nan (fmt : cython.format) (a b : spec_float) :
  is_nan a || is_nan b = true -> is_nan (fmul fmt a b) = true.
Proof. destruct a as [[]|[]| |[]], b as [[]|[]| |[]]; by cbn. Qed.

Lemma fadd_zero_r (fmt : cython.format) (a : spec_float) :
  feqb (fadd fmt a zero) a = negb (is_nan a).
Proof.
  destruct a as [[]|[]| |s m e]; try reflexivity.
  change (fadd fmt (S754_finite s m e) zero) with (S754_finite s m e).
  apply feqb_refl.
Qed.

Lemma fsub_zero_r (fmt : cython.format) (a : spec_float) :
  feqb (fsub fmt a zero) a = negb (is_nan a).
Proof.
  destruct a as [[]|[]| |s m e]; try reflexivity.
  change (fsub fmt (S754_finite s m e) zero) with (S754_finite s m e).
  apply feqb_refl.
Qed.

Lemma fsub_diag (fmt : cython.format) (a : spec_float) :
  fsub fmt a a = if is_finite a then zero else S754_nan.
Proof.
  destruct a as [[]|[]| |s m e]; try reflexivity.
  unfold fsub, SFsub.
  change (Z.sub ?a ?b) with (a - b). by rewrite Z.sub_diag.
Qed.

Section MoreArithmetic.
Import vecmath.
Variable CYTH_VEC_COMPILED : bool.
Local Abbreviation fmt := (cython.float CYTH_VEC_COMPILED).
Local Abbreviation origin := (__init__ None None None None).

(** X4. NaN goes through: a component that is NaN in either operand is
    NaN in the sum, the difference and the product. *)
Theorem nan_propagates (a b : Vec) :
  Forall (fun f : Vec -> cfloat =>
            is_nan (f a) || is_nan (f b) = true ->
            is_nan (f (add_vec CYTH_VEC_COMPILED a b)) = true
            /\ is_nan (f (sub_vec CYTH_VEC_COMPILED a b)) = true
            /\ is_nan (f (dot CYTH_VEC_COMPILED a b)) = true)
         [x; y; z; w].
Proof.
  destruct a, b. repeat constructor; cbn in *;
    first [by apply fadd_nan | by apply fsub_nan | by apply fmul_nan].
Qed.

(** X5. A NaN scalar makes every component NaN. *)
Theorem nan_scalar_propagates (v : Vec) :
  Forall (fun f : Vec -> cfloat =>
            is_nan (f (add_scalar CYTH_VEC_COMPILED v S754_nan)) = true
            /\ is_nan (f (sub_scalar CYTH_VEC_COMPILED v S754_nan)) = true)
         [x; y; z; w].
Proof.
  destruct v. repeat constructor; cbn;
    first [apply fadd_nan | apply fsub_nan]; apply orb_true_r.
Qed.

Lemma eq_nan_l (a b : Vec) :
  is_nan (x a) || is_nan (y a) || is_nan (z a) = true -> __eq__ a b = false.
Proof.
  rewrite eq_unfold. destruct a as [[] [] [] ?]; cbn; try discriminate;
    intros _; rewrite ?andb_false_r; reflexivity.
Qed.

(** X6. A sum with a NaN among the x, y and z components of an
    operand compares unequal to every vector. *)
Theorem nan_sum_equals_nothing (a b v : Vec) :
  is_nan (x a) || is_nan (y a) || is_nan (z a) = true ->
  __eq__ (add_vec CYTH_VEC_COMPILED a b) v = false
  /\ __eq__ (add_vec CYTH_VEC_COMPILED b a) v = false.
Proof.
  intros H. rewrite <- (add_vec_comm CYTH_VEC_COMPILED a b).
  assert (Hnan : is_nan (x (add_vec CYTH_VEC_COMPILED a b))
                 || is_nan (y (add_vec CYTH_VEC_COMPILED a b))
                 || is_nan (z (add_vec CYTH_VEC_COMPILED a b)) = true).
  { destruct a as [ax ay az aw], b as [bx by' bz bw]. cbn in *.
    unfold cadd. rewrite !orb_true_iff in *.
    destruct H as [[H|H]|H]; [left; left | left; right | right];
      apply fadd_nan; by rewrite H. }
  split; by apply eq_nan_l.
Qed.

(** X7. [dot] does not depend on the order of its operands. *)
Theorem dot_commutes (u v : Vec) :
  dot CYTH_VEC_COMPILED u v = dot CYTH_VEC_COMPILED v u.
Proof.
  unfold dot, new, __init__, cmul. cbn. f_equal; apply fmul_comm.
Qed.

(** X8. Adding or subtracting [0.0] or [Vec()] gives a vector equal to
    [v], unless [v] has a NaN among x, y and z; the fields need not be
    the same, since [-0.0 + 0.0] is [+0.0]. *)
Theorem zero_is_neutral (v : Vec) :
  let ok := negb (is_nan (x v) || is_nan (y v) || is_nan (z v)) in
  __eq__ (add_scalar CYTH_VEC_COMPILED v zero) v = ok
  /\ __eq__ (sub_scalar CYTH_VEC_COMPILED v zero) v = ok
  /\ __eq__ (add_vec CYTH_VEC_COMPILED v origin) v = ok
  /\ __eq__ (sub_vec CYTH_VEC_COMPILED v origin) v = ok.
Proof.
  rewrite !eq_unfold. destruct v as [vx vy vz vw]. cbn.
  unfold cadd, csub. rewrite !fadd_zero_r, !fsub_zero_r.
  rewrite !negb_orb. auto.
Qed.

(** X9. [v.sub_vec(v)] is exactly [Vec()] when the components of [v] are
    finite; a component that is infinite or NaN gives NaN. *)
Theorem sub_vec_self (v : Vec) :
  sub_vec CYTH_VEC_COMPILED v v
  = mkVec (if is_finite (x v) then zero else S754_nan)
          (if is_finite (y v) then zero else S754_nan)
          (if is_finite (z v) then zero else S754_nan)
          (if is_finite (w v) then zero else S754_nan).
Proof.
  destruct v as [vx vy vz vw]. unfold sub_vec, new, __init__, csub. cbn.
  by rewrite !fsub_diag.
Qed.

(** X10. [sub_scalar] undoes [add_scalar] whenever the sums of [s] with
    the x, y and z components are floats of the format. *)
Theorem sub_scalar_undoes_add_scalar (v : Vec) (s : cfloat) :
  exact_sum fmt (x v) s -> exact_sum fmt (y v) s -> exact_sum fmt (z v) s ->
  __eq__ (sub_scalar CYTH_VEC_COMPILED (add_scalar CYTH_VEC_COMPILED v s) s) v
  = true.
Proof.
  intros Hx Hy Hz. rewrite eq_unfold.
  destruct v as [vx vy vz vw]. cbn in *. unfold csub, cadd.
  by rewrite !fsub_fadd_exact.
Qed.
End MoreArithmetic.

(** ** Results and operands are separate objects *)

Section Independence.
Variable CYTH_VEC_COMPILED : bool.

Lemma call_vec_then_assign (m : Vec -> Vec -> Vec)
    (setter : Vec -> cfloat -> Vec) (h : Obj.store)
    (self other : Obj.ref) (a b : Vec) (value : cfloat) :
  h !! self = Some a -> h !! other = Some b ->
  exists (r : Obj.ref) (h1 h2 h3 : Obj.store),
    Obj.call_vec m self other h = Some (r, h1)
    /\ Obj.assign setter r value h1 = Some h2
    /\ h2 !! r = Some (setter (m a b) value)
    /\ h2 !! self = Some a /\ h2 !! other = Some b
    /\ Obj.assign setter self value h1 = Some h3
    /\ h3 !! self = Some (setter a value)
    /\ h3 !! r = Some (m a b).
Proof.
  intros Ha Hb.
  destruct (call_vec_fresh m h self other a b Ha Hb)
    as (r & h1 & Hcall & Hr & Hr1 & Hs & Ho & Hframe).
  assert (r <> self) by congruence.
  assert (r <> other) by congruence.
  exists r, h1, (<[r := setter (m a b) value]> h1),
    (<[self := setter a value]> h1).
  unfold Obj.assign. rewrite Hr1, Hs, Ha.
  repeat split; auto.
  - apply lookup_insert_eq.
  - rewrite lookup_insert_ne by done. congruence.
  - rewrite lookup_insert_ne by done. congruence.
  - apply lookup_insert_eq.
  - by rewrite lookup_insert_ne.
Qed.

(** X11. After [r = self.add_vec(other)], assigning [r.x] leaves [self]
    and [other] as they were, and assigning [self.x] leaves [r] as it
    was; the same for [sub_vec] and [dot]. *)
Theorem result_and_operands_are_independent
    (h : Obj.store) (self other : Obj.ref) (a b : Vec) (value : cfloat) :
  h !! self = Some a -> h !! other = Some b ->
  Forall (fun '(call, m) =>
            exists (r : Obj.ref) (h1 h2 h3 : Obj.store),
              call self other h = Some (r, h1)
              /\ Obj.set_x r value h1 = Some h2
              /\ h2 !! r = Some (vecmath.set_x (m a b) value)
              /\ h2 !! self = Some a /\ h2 !! other = Some b
              /\ Obj.set_x self value h1 = Some h3
              /\ h3 !! self = Some (vecmath.set_x a value)
              /\ h3 !! r = Some (m a b))
    [(Obj.add_vec CYTH_VEC_COMPILED, vecmath.add_vec CYTH_VEC_COMPILED);
     (Obj.sub_vec CYTH_VEC_COMPILED, vecmath.sub_vec CYTH_VEC_COMPILED);
     (Obj.dot CYTH_VEC_COMPILED, vecmath.dot CYTH_VEC_COMPILED)].
Proof.
  intros Ha Hb.
  repeat constructor; by apply call_vec_then_assign.
Qed.
End Independence.

(** ** Setters *)

Section Setters.

Lemma assign_assign (f g : Vec -> cfloat -> Vec) (h : Obj.store)
    (self : Obj.ref) (a : Vec) (u v : cfloat) :
  h !! self = Some a ->
  Obj.assign f self u h ≫= Obj.assign g self v
  = Some (<[self := g (f a u) v]> h).
Proof.
  intros Ha. unfold Obj.assign. rewrite Ha. cbn.
  rewrite lookup_insert_eq. by rewrite insert_insert_eq.
Qed.

(** X12. Assignments to two different components can be made in either
    order, whichever the two components are; of two assignments to one
    component the second stands; and each assignment writes its own
    component and leaves the other three as they were. *)
Theorem setters_compose (h : Obj.store) (self : Obj.ref) (a : Vec)
    (u v : cfloat) :
  h !! self = Some a ->
  (Obj.set_x self u h ≫= Obj.set_y self v
   = Obj.set_y self v h ≫= Obj.set_x self u
   /\ Obj.set_x self u h ≫= Obj.set_z self v
      = Obj.set_z self v h ≫= Obj.set_x self u
   /\ Obj.set_x self u h ≫= Obj.set_w self v
      = Obj.set_w self v h ≫= Obj.set_x self u
   /\ Obj.set_y self u h ≫= Obj.set_z self v
      = Obj.set_z self v h ≫= Obj.set_y self u
   /\ Obj.set_y self u h ≫= Obj.set_w self v
      = Obj.set_w self v h ≫= Obj.set_y self u
   /\ Obj.set_z self u h ≫= Obj.set_w self v
      = Obj.set_w self v h ≫= Obj.set_z self u)
  /\ (Obj.set_x self u h ≫= Obj.set_x self v = Obj.set_x self v h
      /\ Obj.set_y self u h ≫= Obj.set_y self v = Obj.set_y self v h
      /\ Obj.set_z self u h ≫= Obj.set_z self v = Obj.set_z self v h
      /\ Obj.set_w self u h ≫= Obj.set_w self v = Obj.set_w self v h)
  /\ (Obj.set_x self u h = Some (<[self := mkVec u (_y a) (_z a) (_w a)]> h)
      /\ Obj.set_y self u h
         = Some (<[self := mkVec (_x a) u (_z a) (_w a)]> h)
      /\ Obj.set_z self u h
         = Some (<[self := mkVec (_x a) (_y a) u (_w a)]> h)
      /\ Obj.set_w self u h
         = Some (<[self := mkVec (_x a) (_y a) (_z a) u]> h)).
Proof.
  intros Ha. unfold Obj.set_x, Obj.set_y, Obj.set_z, Obj.set_w.
  rewrite !(assign_assign _ _ h self a) by done.
  unfold Obj.assign. rewrite Ha. repeat split.
Qed.
End Setters.

(** ** Floats across the boundary *)

(** A binary32 number is a binary64 number. *)
Lemma binary32_in_binary64 (s : bool) (m : positive) (e : Z) :
  valid cython.binary32 (S754_finite s m e) = true ->
  exists (m' : positive) (e' : Z),
    valid cython.binary64 (S754_finite s m' e') = true
    /\ (F2Q (S754_finite s m' e') == F2Q (S754_finite s m e))%Q.
Proof.
  intros Hv.
  unfold valid, valid_binary, bounded, canonical_mantissa, fexp, emin in Hv.
  cbn in Hv. apply andb_true_iff in Hv as [Hc Hb].
  apply Z.eqb_eq in Hc. apply Z.leb_le in Hb.
  set (d := Zpos (digits2_pos m)) in *.
  assert (Hd : 0 < d) by (unfold d; lia).
  set (k := Z.to_pos (53 - d)).
  assert (Hk : Zpos k = 53 - d) by (unfold k; lia).
  exists (Pos.iter xO m k), (e - Zpos k). split.
  - unfold valid, valid_binary, bounded, canonical_mantissa, fexp, emin.
    cbn. rewrite digits2_iter_xO.
    apply andb_true_iff. split; [apply Z.eqb_eq | apply Z.leb_le]; lia.
  - simpl. rewrite iter_xO_Z, cond_Zopp_mul.
    symmetry. rewrite (dyadic_scale _ e (e - Zpos k)) by lia.
    by replace (e - (e - Zpos k)) with (Zpos k) by lia.
Qed.

(** Converting a nonzero number to a format that has it gives the float
    of that format. *)
Lemma convert_exact (fmt : cython.format) (s : bool) (m : positive) (e : Z)
    (r : spec_float) :
  valid fmt r = true -> is_finite r = true ->
  (F2Q r == F2Q (S754_finite s m e))%Q ->
  convert fmt (S754_finite s m e) = r /\ is_zero r = false.
Proof.
  intros Hv Hr Hq. unfold convert.
  rewrite (binary_normalize_exact _ _ _ _ _ r); try done; [| by destruct r].
  destruct r as [sr|sr| |sr mr er]; try done.
  simpl in Hq. symmetry in Hq. apply dyadic_zero in Hq. by destruct s.
Qed.

Section BoundaryRoundTrip.
Variable CYTH_VEC_COMPILED : bool.
Local Abbreviation fmt := (cython.float CYTH_VEC_COMPILED).

(** A C float handed to Python and converted back is unchanged. *)
Lemma narrow_widen (f : cfloat) :
  valid fmt f = true ->
  narrow CYTH_VEC_COMPILED (widen CYTH_VEC_COMPILED f) = f.
Proof.
  unfold narrow, widen. destruct CYTH_VEC_COMPILED; [| done].
  destruct f as [s|s| |s m e]; try done. intros Hv.
  destruct (binary32_in_binary64 s m e Hv) as (m' & e' & Hv' & Hq).
  destruct (convert_exact cython.binary64 s m e (S754_finite s m' e'))
    as [-> _]; try done.
  by destruct (convert_exact cython.binary32 s m' e' (S754_finite s m e))
    as [-> _].
Qed.

(** A double that the component format has survives the conversion to a
    C float and back. *)
Lemma widen_narrow (d : pyfloat) :
  valid cython.binary64 d = true ->
  (is_finite d = true -> representable fmt (F2Q d)) ->
  widen CYTH_VEC_COMPILED (narrow CYTH_VEC_COMPILED d) = d.
Proof.
  unfold narrow, widen. destruct CYTH_VEC_COMPILED; [| done].
  destruct d as [s|s| |s m e]; try done. intros Hv Hrep.
  destruct (Hrep eq_refl) as (r & Hvr & Hfr & Hq).
  destruct (convert_exact cython.binary32 s m e r) as [-> Hz]; try done.
  destruct r as [sr|sr| |sr mr er]; try done.
  by destruct (convert_exact cython.binary64 sr mr er (S754_finite s m e))
    as [-> _].
Qed.
End BoundaryRoundTrip.

Lemma fadd_finite_exact (fmt : cython.format) (sa sb : bool)
    (ma mb : positive) (ea eb : Z) (r : spec_float) :
  valid fmt r = true -> is_finite r = true ->
  (F2Q r == F2Q (S754_finite sa ma ea) + F2Q (S754_finite sb mb eb))%Q ->
  fadd fmt (S754_finite sa ma ea) (S754_finite sb mb eb)
  = match r with S754_zero _ => S754_zero false | _ => r end.
Proof.
  intros Hv Hf Hq. unfold fadd.
  destruct (SFadd_finite_value (cython.prec fmt) (cython.emax fmt)
              sa sb ma mb ea eb) as (M & -> & HM).
  apply binary_normalize_exact; [done | by destruct r | by rewrite Hq, HM].
Qed.

Section ScalarThroughDouble.
Variable CYTH_VEC_COMPILED : bool.
Local Abbreviation fmt := (cython.float CYTH_VEC_COMPILED).

(** Adding two C floats in double precision and rounding the sum gives
    the single-precision sum, when the exact sum is a C float. *)
Lemma add_through_double (a s : cfloat) :
  exact_sum fmt a s ->
  narrow CYTH_VEC_COMPILED
    (fadd cython.binary64 (widen CYTH_VEC_COMPILED a)
                          (widen CYTH_VEC_COMPILED s))
  = cadd CYTH_VEC_COMPILED a s.
Proof.
  intros (Hva & Hvs & Hfa & Hfs & r & Hvr & Hfr & Hr).
  unfold cadd, narrow, widen. destruct CYTH_VEC_COMPILED; [| done].
  cbn [cython.float] in *.
  destruct a as [sa|sa| |sa ma ea]; try discriminate;
    destruct s as [ss|ss| |ss ms es]; try discriminate.
  - by destruct sa, ss.
  - destruct (binary32_in_binary64 ss ms es Hvs) as (m' & e' & Hv' & Hq).
    destruct (convert_exact cython.binary64 ss ms es (S754_finite ss m' e'))
      as [-> _]; try done.
    change (fadd cython.binary64 (convert cython.binary64 (S754_zero sa))
              (S754_finite ss m' e')) with (S754_finite ss m' e').
    change (fadd cython.binary32 (S754_zero sa) (S754_finite ss ms es))
      with (S754_finite ss ms es).
    by destruct (convert_exact cython.binary32 ss m' e' (S754_finite ss ms es))
      as [-> _].
  - destruct (binary32_in_binary64 sa ma ea Hva) as (m' & e' & Hv' & Hq).
    destruct (convert_exact cython.binary64 sa ma ea (S754_finite sa m' e'))
      as [-> _]; try done.
    change (fadd cython.binary64 (S754_finite sa m' e')
              (convert cython.binary64 (S754_zero ss)))
      with (S754_finite sa m' e').
    change (fadd cython.binary32 (S754_finite sa ma ea) (S754_zero ss))
      with (S754_finite sa ma ea).
    by destruct (convert_exact cython.binary32 sa m' e' (S754_finite sa ma ea))
      as [-> _].
  - destruct (binary32_in_binary64 sa ma ea Hva) as (ma' & ea' & Hva' & Hqa).
    destruct (binary32_in_binary64 ss ms es Hvs) as (ms' & es' & Hvs' & Hqs).
    destruct (convert_exact cython.binary64 sa ma ea (S754_finite sa ma' ea'))
      as [-> _]; try done.
    destruct (convert_exact cython.binary64 ss ms es (S754_finite ss ms' es'))
      as [-> _]; try done.
    rewrite (fadd_finite_exact cython.binary32 _ _ _ _ _ _ r) by done.
    destruct r as [sr|sr| |sr mr er]; try discriminate.
    + rewrite (fadd_finite_exact cython.binary64 _ _ _ _ _ _ (S754_zero sr));
        [done | done | done |].
      by rewrite Hqa, Hqs.
    + destruct (binary32_in_binary64 sr mr er Hvr) as (mr' & er' & Hvr' & Hqr).
      rewrite (fadd_finite_exact cython.binary64 _ _ _ _ _ _
                 (S754_finite sr mr' er')); [| done | done |].
      * by destruct (convert_exact cython.binary32 sr mr' er'
                       (S754_finite sr mr er)) as [-> _].
      * by rewrite Hqr, Hr, Hqa, Hqs.
Qed.
End ScalarThroughDouble.

Lemma binary_round_aux_sign (prec emax : Z) (s : bool) (m e : Z)
    (l : location) :
  is_negative (binary_round_aux prec emax s m e l) = true -> s = true.
Proof.
  unfold binary_round_aux.
  destruct (shr_fexp prec emax m e l) as [mrs' e'].
  destruct (shr_fexp prec emax _ e' loc_Exact) as [mrs'' e''].
  destruct (shr_m mrs'') as [|p|p]; [done | | done].
  by destruct (Z.leb e'' (Z.sub emax prec)).
Qed.

Lemma fmul_self_sign (fmt : cython.format) (a : spec_float) :
  is_negative (fmul fmt a a) = false.
Proof.
  destruct a as [[]|[]| |s m e]; try reflexivity.
  apply not_true_is_false. intros H.
  apply binary_round_aux_sign in H. by destruct s.
Qed.

Section MoreVec.
Import vecmath.
Variable CYTH_VEC_COMPILED : bool.
Local Abbreviation fmt := (cython.float CYTH_VEC_COMPILED).
Local Abbreviation to_c := (to_cfloat CYTH_VEC_COMPILED).
Local Abbreviation to_py := (widen CYTH_VEC_COMPILED).

(** X13. No component of [v.dot(v)] is negative: each is NaN, or a zero,
    a finite number or an infinity with the sign bit clear. *)
Theorem dot_self_not_negative (v : Vec) :
  Forall (fun f : Vec -> cfloat =>
            is_negative (f (dot CYTH_VEC_COMPILED v v)) = false)
         [x; y; z; w].
Proof.
  destruct v. repeat constructor; apply fmul_self_sign.
Qed.

(** X14. Reading a component and assigning the float object back leaves
    the vector as it was, in both files, compiled or not. *)
Theorem component_read_write_back (v : Vec) :
  valid fmt (x v) = true -> valid fmt (y v) = true ->
  valid fmt (z v) = true -> valid fmt (w v) = true ->
  (set_x v (to_c (Py (to_py (x v)))) = v
   /\ set_y v (to_c (Py (to_py (y v)))) = v
   /\ set_z v (to_c (Py (to_py (z v)))) = v
   /\ set_w v (to_c (Py (to_py (w v)))) = v)
  /\ (src_vecmath.set_x CYTH_VEC_COMPILED v (Py (to_py (src_vecmath.x v))) = v
      /\ src_vecmath.set_y CYTH_VEC_COMPILED v (Py (to_py (src_vecmath.y v)))
         = v
      /\ src_vecmath.set_z CYTH_VEC_COMPILED v (Py (to_py (src_vecmath.z v)))
         = v
      /\ src_vecmath.set_w CYTH_VEC_COMPILED v (Py (to_py (src_vecmath.w v)))
         = v).
Proof.
  intros Hx Hy Hz Hw. destruct v as [vx vy vz vw].
  unfold set_x, set_y, set_z, set_w, src_vecmath.set_x, src_vecmath.set_y,
    src_vecmath.set_z, src_vecmath.set_w.
  cbn in *. by rewrite !narrow_widen.
Qed.

(** X15. A vector built from doubles that the component format has gives
    the same doubles back through its getters, in both files. *)
Theorem constructed_components_read_back (dx dy dz dw : pyfloat) :
  fits fmt dx -> fits fmt dy -> fits fmt dz -> fits fmt dw ->
  (to_py (x (__init__ (Some (to_c (Py dx))) (Some (to_c (Py dy)))
                      (Some (to_c (Py dz))) (Some (to_c (Py dw))))) = dx
   /\ to_py (y (__init__ (Some (to_c (Py dx))) (Some (to_c (Py dy)))
                         (Some (to_c (Py dz))) (Some (to_c (Py dw))))) = dy
   /\ to_py (z (__init__ (Some (to_c (Py dx))) (Some (to_c (Py dy)))
                         (Some (to_c (Py dz))) (Some (to_c (Py dw))))) = dz
   /\ to_py (w (__init__ (Some (to_c (Py dx))) (Some (to_c (Py dy)))
                         (Some (to_c (Py dz))) (Some (to_c (Py dw))))) = dw)
  /\ src_vecmath.__init__ CYTH_VEC_COMPILED
       (Some (Py dx)) (Some (Py dy)) (Some (Py dz)) (Some (Py dw))
     = __init__ (Some (to_c (Py dx))) (Some (to_c (Py dy)))
                (Some (to_c (Py dz))) (Some (to_c (Py dw))).
Proof.
  intros [Hvx Hx] [Hvy Hy] [Hvz Hz] [Hvw Hw]. cbn.
  by rewrite !widen_narrow.
Qed.

(** X16. When the scalar is a C float and its exact sum with each
    component is one too, [add_scalar] gives the same vector in both
    files, also compiled. *)
Theorem copies_agree_on_exact_add_scalar (v : Vec) (s : cfloat) :
  exact_sum fmt (x v) s -> exact_sum fmt (y v) s ->
  exact_sum fmt (z v) s -> exact_sum fmt (w v) s ->
  add_scalar CYTH_VEC_COMPILED v (to_c (Py (to_py s)))
  = src_vecmath.add_scalar CYTH_VEC_COMPILED v (Py (to_py s)).
Proof.
  intros Hx Hy Hz Hw.
  assert (Hs : valid fmt s = true) by apply Hx.
  destruct v as [vx vy vz vw].
  unfold add_scalar, src_vecmath.add_scalar, new, src_vecmath.new, __init__,
    src_vecmath.__init__, py_add. cbn in *.
  by rewrite narrow_widen, !add_through_double.
Qed.
End MoreVec.

Lemma exact_sum_scalar_examples :
  exact_sum cython.binary32 (vecmath.x examples.v) more_examples.scalar
  /\ exact_sum cython.binary32 (vecmath.y examples.v) more_examples.scalar
  /\ exact_sum cython.binary32 (vecmath.z examples.v) more_examples.scalar
  /\ exact_sum cython.binary32 (vecmath.w examples.v) more_examples.scalar.
Proof.
  repeat apply conj; try reflexivity.
  - exists (fadd cython.binary32 (vecmath.x examples.v) more_examples.scalar).
    repeat split; vm_compute; reflexivity.
  - exists (fadd cython.binary32 (vecmath.y examples.v) more_examples.scalar).
    repeat split; vm_compute; reflexivity.
  - exists (fadd cython.binary32 (vecmath.z examples.v) more_examples.scalar).
    repeat split; vm_compute; reflexivity.
  - exists (fadd cython.binary32 (vecmath.w examples.v) more_examples.scalar).
    repeat split; vm_compute; reflexivity.
Defined.

Lemma fits_examples :
  fits cython.binary32 more_examples.three
  /\ fits cython.binary32 more_examples.five
  /\ fits cython.binary32 more_examples.minus_500
  /\ fits cython.binary32 zero.
Proof.
  repeat apply conj; try reflexivity; intros _.
  - exists (lit true 3). repeat split; vm_compute; reflexivity.
  - exists (lit true 5). repeat split; vm_compute; reflexivity.
  - exists (lit true (-500)). repeat split; vm_compute; reflexivity.
  - exists zero. repeat split; vm_compute; reflexivity.
Defined.

Lemma sub_scalar_undoes_add_scalar_witness :
  exact_sum cython.binary32 (vecmath.x examples.v) more_examples.scalar
  /\ vecmath.__eq__
       (vecmath.sub_scalar true
          (vecmath.add_scalar true examples.v more_examples.scalar)
          more_examples.scalar)
       examples.v
     = true.
Proof.
  split; [apply exact_sum_scalar_examples |].
  apply (sub_scalar_undoes_add_scalar true examples.v more_examples.scalar);
    apply exact_sum_scalar_examples.
Defined.

Lemma copies_agree_on_exact_add_scalar_witness :
  exact_sum cython.binary32 (vecmath.x examples.v) more_examples.scalar
  /\ vecmath.add_scalar true examples.v
       (to_cfloat true (Py (widen true more_examples.scalar)))
     = src_vecmath.add_scalar true examples.v
         (Py (widen true more_examples.scalar)).
Proof.
  split; [apply exact_sum_scalar_examples |].
  apply (copies_agree_on_exact_add_scalar true examples.v
           more_examples.scalar); apply exact_sum_scalar_examples.
Defined.

Lemma component_read_write_back_witness :
  valid cython.binary32 (vecmath.x examples.v) = true
  /\ vecmath.set_x examples.v
       (to_cfloat true (Py (widen true (vecmath.x examples.v))))
     = examples.v.
Proof.
  split; [reflexivity |].
  apply (component_read_write_back true examples.v); reflexivity.
Defined.

Lemma constructed_components_read_back_witness :
  fits cython.binary32 more_examples.three
  /\ widen true
       (vecmath.x
          (vecmath.__init__
             (Some (to_cfloat true (Py more_examples.three)))
             (Some (to_cfloat true (Py more_examples.five)))
             (Some (to_cfloat true (Py more_examples.minus_500)))
             (Some (to_cfloat true (Py zero)))))
     = more_examples.three.
Proof.
  split; [apply fits_examples |].
  apply (constructed_components_read_back true more_examples.three
           more_examples.five more_examples.minus_500 zero);
    apply fits_examples.
Defined.

(** The condition matters: compiled, [Vec(0.1).x] is not [0.1]. *)
Example constructed_tenth_reads_back_rounded :
  valid cython.binary64 more_examples.tenth = true
  /\ feqb (widen true
             (vecmath.x
                (vecmath.__init__
                   (Some (to_cfloat true (Py more_examples.tenth)))
                   None None None)))
          more_examples.tenth
     = false.
Proof. split; vm_compute; reflexivity. Qed.

Lemma result_and_operands_are_independent_witness :
  more_examples.two_objects !! 0%nat = Some examples.v
  /\ more_examples.two_objects !! 1%nat = Some examples.u
  /\ exists (r : Obj.ref) (h1 h2 h3 : Obj.store),
       Obj.add_vec true 0%nat 1%nat more_examples.two_objects = Some (r, h1)
       /\ Obj.set_x r S754_nan h1 = Some h2
       /\ h2 !! r
          = Some (vecmath.set_x (vecmath.add_vec true examples.v examples.u)
                    S754_nan)
       /\ h2 !! 0%nat = Some examples.v /\ h2 !! 1%nat = Some examples.u
       /\ Obj.set_x 0%nat S754_nan h1 = Some h3
       /\ h3 !! 0%nat = Some (vecmath.set_x examples.v S754_nan)
       /\ h3 !! r = Some (vecmath.add_vec true examples.v examples.u).
Proof.
  split; [reflexivity | split; [reflexivity |]].
  exact (Forall_inv
           (result_and_operands_are_independent true
              more_examples.two_objects 0%nat 1%nat examples.v examples.u
              S754_nan eq_refl eq_refl)).
Defined.

Lemma setters_compose_witness :
  examples.one_object !! 0%nat = Some examples.special
  /\ Obj.set_x 0%nat zero examples.one_object ≫= Obj.set_x 0%nat S754_nan
     = Obj.set_x 0%nat S754_nan examples.one_object.
Proof.
  split; [reflexivity |].
  apply (proj1 (proj2 (setters_compose examples.one_object 0%nat
                         examples.special zero S754_nan eq_refl))).
Defined.

Lemma nan_sum_equals_nothing_witness :
  is_nan (vecmath.x examples.nan_x) || is_nan (vecmath.y examples.nan_x)
  || is_nan (vecmath.z examples.nan_x) = true
  /\ vecmath.__eq__ (vecmath.add_vec true examples.nan_x examples.v)
       (vecmath.add_vec true examples.nan_x examples.v)
     = false.
Proof.
  split; [reflexivity |].
  apply (nan_sum_equals_nothing true examples.nan_x examples.v
           (vecmath.add_vec true examples.nan_x examples.v)).
  reflexivity.
Defined.

(** Subtracting is adding the negated number. *)
Lemma fsub_as_fadd (fmt : cython.format) (a b : spec_float) :
  fsub fmt a b = fadd fmt a (SFopp b).
Proof.
  destruct a as [sa|sa| |sa ma ea], b as [sb|sb| |sb mb eb];
    try reflexivity; by destruct sa, sb.
Qed.

Lemma SFopp_involutive (a : spec_float) : SFopp (SFopp a) = a.
Proof. destruct a as [s|s| |s m e]; cbn; by rewrite ?negb_involutive. Qed.

Section AddAfterSub.
Import vecmath.
Variable CYTH_VEC_COMPILED : bool.
Local Abbreviation fmt := (cython.float CYTH_VEC_COMPILED).

(** X17. [add_vec] undoes [sub_vec] whenever the differences of the x,
    of the y and of the z components are floats of the format. *)
Theorem add_vec_undoes_sub_vec (a b : Vec) :
  exact_sum fmt (x a) (SFopp (x b)) -> exact_sum fmt (y a) (SFopp (y b)) ->
  exact_sum fmt (z a) (SFopp (z b)) ->
  __eq__ (add_vec CYTH_VEC_COMPILED (sub_vec CYTH_VEC_COMPILED a b) b) a
  = true.
Proof.
  intros Hx Hy Hz. rewrite eq_unfold.
  destruct a as [ax ay az aw], b as [bx by' bz bw]. cbn in *.
  unfold cadd, csub.
  rewrite <- (SFopp_involutive bx) at 2.
  rewrite <- (SFopp_involutive by') at 2.
  rewrite <- (SFopp_involutive bz) at 2.
  rewrite <- !(fsub_as_fadd fmt _ (SFopp _)).
  rewrite !(fsub_as_fadd fmt _ bx), !(fsub_as_fadd fmt _ by'),
    !(fsub_as_fadd fmt _ bz).
  by rewrite !fsub_fadd_exact.
Qed.
End AddAfterSub.

Lemma exact_difference_examples :
  exact_sum cython.binary32 (vecmath.x examples.v)
    (SFopp (vecmath.x examples.u))
  /\ exact_sum cython.binary32 (vecmath.y examples.v)
       (SFopp (vecmath.y examples.u))
  /\ exact_sum cython.binary32 (vecmath.z examples.v)
       (SFopp (vecmath.z examples.u)).
Proof.
  repeat apply conj; try reflexivity.
  - exists zero. repeat split; vm_compute; reflexivity.
  - exists (lit true 10). repeat split; vm_compute; reflexivity.
  - exists (lit true 3). repeat split; vm_compute; reflexivity.
Defined.

Lemma add_vec_undoes_sub_vec_witness :
  exact_sum cython.binary32 (vecmath.x examples.v)
    (SFopp (vecmath.x examples.u))
  /\ vecmath.__eq__
       (vecmath.add_vec true (vecmath.sub_vec true examples.v examples.u)
          examples.u)
       examples.v
     = true.
Proof.
  split; [apply exact_difference_examples |].
  apply (add_vec_undoes_sub_vec true examples.v examples.u);
    apply exact_difference_examples.
Defined.

(** * The binary32 sum through binary64 *)

(** ** Rounding does not depend on how the number is written *)

Section ShiftInvariance.
Variables prec emax : Z.

Lemma shr_fexp_shift (m k : positive) (e : Z) :
  e <= fexp prec emax (Zpos (digits2_pos m) + e) ->
  shr_fexp prec emax (Zpos (Pos.iter xO m k)) (e - Zpos k) loc_Exact
  = shr_fexp prec emax (Zpos m) e loc_Exact.
Proof.
  intros Hle. unfold shr_fexp. simpl Zdigits2.
  change (Z.add ?a ?b) with (a + b). change (Z.sub ?a ?b) with (a - b).
  rewrite digits2_iter_xO.
  replace (Zpos (digits2_pos m + k) + (e - Zpos k))
    with (Zpos (digits2_pos m) + e) by lia.
  set (fe := fexp prec emax (Zpos (digits2_pos m) + e)) in *.
  unfold shr_record_of_loc.
  destruct (fe - e) as [|q|q] eqn:Hn; [| | lia].
  - replace (fe - (e - Zpos k)) with (Zpos k) by lia.
    unfold shr. rewrite shr_iter_xO. f_equal. lia.
  - replace (fe - (e - Zpos k)) with (Zpos (q + k)) by lia.
    unfold shr. rewrite !(iter_pos_iter shr_1), Pos.iter_add, <- !(iter_pos_iter shr_1).
    rewrite shr_iter_xO. f_equal.
    change (Z.add ?a ?b) with (a + b). lia.
Qed.

Lemma binary_round_shift (s : bool) (m k : positive) (e : Z) :
  binary_round prec emax s (Pos.iter xO m k) (e - Zpos k)
  = binary_round prec emax s m e.
Proof.
  unfold binary_round.
  change (Z.add ?a ?b) with (a + b).
  rewrite digits2_iter_xO.
  replace (Zpos (digits2_pos m + k) + (e - Zpos k))
    with (Zpos (digits2_pos m) + e) by lia.
  remember (fexp prec emax (Zpos (digits2_pos m) + e)) as fe eqn:Hfe.
  unfold shl_align. change (Z.sub ?a ?b) with (a - b).
  destruct (fe - e) as [|q|q] eqn:Hn.
  - replace (fe - (e - Zpos k)) with (Zpos k) by lia.
    unfold binary_round_aux. rewrite shr_fexp_shift; [done | rewrite <- Hfe; lia].
  - replace (fe - (e - Zpos k)) with (Zpos (q + k)) by lia.
    unfold binary_round_aux. rewrite shr_fexp_shift; [done | rewrite <- Hfe; lia].
  - destruct (Pos.compare_spec k q) as [->|Hlt|Hgt].
    + replace (fe - (e - Zpos q)) with 0 by lia.
      by replace (e - Zpos q) with fe by lia.
    + replace (fe - (e - Zpos k)) with (Zneg (q - k)) by lia.
      rewrite <- Pos.iter_add. by replace (q - k + k)%positive with q by lia.
    + replace (fe - (e - Zpos k)) with (Zpos (k - q)) by lia.
      unfold binary_round_aux.
      replace k with (k - q + q)%positive at 1 by lia.
      rewrite Pos.iter_add.
      replace (e - Zpos k) with (fe - Zpos (k - q)) by lia.
      rewrite shr_fexp_shift; [done |].
      rewrite digits2_iter_xO.
      replace (Zpos (digits2_pos m + q) + fe)
        with (Zpos (digits2_pos m) + e) by lia.
      lia.
Qed.
End ShiftInvariance.

(** ** Digits and right shifts, arithmetically *)

Lemma digits2_size (p : positive) : digits2_pos p = Pos.size p.
Proof. induction p; simpl; congruence. Qed.

Lemma digits_bounds (p : positive) :
  2 ^ (Zpos (digits2_pos p) - 1) <= Zpos p < 2 ^ Zpos (digits2_pos p).
Proof.
  rewrite digits2_size. split.
  - pose proof (Pos.size_le p) as H.
    apply Pos2Z.pos_le_pos in H. rewrite Pos2Z.inj_pow in H.
    replace (Zpos (Pos.size p)) with (Zpos (Pos.size p) - 1 + 1) in H by lia.
    rewrite Z.pow_add_r in H by lia. lia.
  - pose proof (Pos.size_gt p) as H.
    apply Pos2Z.pos_lt_pos in H. by rewrite Pos2Z.inj_pow in H.
Qed.

Lemma digits_unique (p : positive) (d : Z) :
  2 ^ (d - 1) <= Zpos p < 2 ^ d -> Zpos (digits2_pos p) = d.
Proof.
  intros [Hlo Hhi]. pose proof (digits_bounds p) as [Hlo' Hhi'].
  assert (0 < d).
  { destruct (Z.lt_trichotomy d 0) as [H|[->|H]]; [| simpl in Hhi; lia | done].
    rewrite Z.pow_neg_r in Hhi by done. lia. }
  destruct (Z.lt_trichotomy (Zpos (digits2_pos p)) d) as [H1|[H1|H1]];
    [| done |].
  - assert (2 ^ Zpos (digits2_pos p) <= 2 ^ (d - 1))
      by (apply Z.pow_le_mono_r; lia). lia.
  - assert (2 ^ d <= 2 ^ (Zpos (digits2_pos p) - 1))
      by (apply Z.pow_le_mono_r; lia). lia.
Qed.

Lemma shr_1_spec (m : Z) (r s : bool) :
  0 <= m ->
  shr_1 (Build_shr_record m r s) = Build_shr_record (m / 2) (Z.odd m) (r || s).
Proof.
  intros H. destruct m as [|[p|p|]|p]; try lia; simpl shr_1; f_equal.
  - rewrite Pos2Z.inj_xI. apply (Z.div_unique _ _ _ 1); lia.
  - rewrite Pos2Z.inj_xO. apply (Z.div_unique _ _ _ 0); lia.
Qed.

Lemma mod_pow2_succ (M k : Z) :
  0 <= k ->
  negb (M mod 2 ^ (k + 1) =? 0)
  = Z.odd (M / 2 ^ k) || negb (M mod 2 ^ k =? 0).
Proof.
  intros Hk. rewrite Z.pow_add_r, Z.pow_1_r by lia.
  assert (Hp : 0 < 2 ^ k) by (apply Z.pow_pos_nonneg; lia).
  rewrite Z.rem_mul_r by lia.
  pose proof (Z.mod_pos_bound M (2 ^ k) Hp) as Hr.
  pose proof (Zmod_odd (M / 2 ^ k)) as Hq.
  destruct (Z.odd (M / 2 ^ k)); rewrite Hq;
    destruct (Z.eqb_spec (M mod 2 ^ k) 0) as [->|Hne]; simpl;
    first [ apply negb_true_iff, Z.eqb_neq; lia
          | apply negb_false_iff, Z.eqb_eq; lia ].
Qed.

Lemma iter_shr_spec (n : positive) (M : Z) :
  0 <= M ->
  SpecFloat.iter_pos shr_1 n (Build_shr_record M false false)
  = Build_shr_record (M / 2 ^ Zpos n)
      (Z.odd (M / 2 ^ (Zpos n - 1)))
      (negb (M mod 2 ^ (Zpos n - 1) =? 0)).
Proof.
  intros HM. rewrite iter_pos_iter.
  induction n as [|n IH] using Pos.peano_ind.
  - unfold Pos.iter. rewrite shr_1_spec by done.
    replace (Zpos 1 - 1) with 0 by lia.
    by rewrite Z.pow_0_r, Z.pow_1_r, Z.div_1_r, Z.mod_1_r.
  - rewrite Pos.iter_succ, IH.
    assert (Hp : 0 < 2 ^ Zpos n) by (apply Z.pow_pos_nonneg; lia).
    rewrite shr_1_spec by (apply Z.div_pos; lia).
    rewrite Pos2Z.inj_succ.
    replace (Z.succ (Zpos n) - 1) with (Zpos n) by lia.
    f_equal.
    + rewrite Z.div_div by lia. f_equal. rewrite Z.pow_succ_r by lia. lia.
    + replace (Zpos n) with (Zpos n - 1 + 1) at 3 by lia.
      by rewrite mod_pow2_succ by lia.
Qed.

Section RoundingFormula.
Variables prec emax : Z.

(** Rounding a mantissa that has too many digits: drop [n] bits and
    round on the two bits of information about what was dropped. *)
Lemma binary_round_right (s : bool) (P n : positive) (E : Z) :
  fexp prec emax (Zpos (digits2_pos P) + E) - E = Zpos n ->
  binary_round prec emax s P E
  = round_finish prec emax s
      (round_nearest_even (Zpos P / 2 ^ Zpos n)
         (loc_of_shr_record
            (Build_shr_record (Zpos P / 2 ^ Zpos n)
               (Z.odd (Zpos P / 2 ^ (Zpos n - 1)))
               (negb (Zpos P mod 2 ^ (Zpos n - 1) =? 0)))))
      (E + Zpos n).
Proof.
  intros Hn. unfold binary_round, shl_align.
  change (Z.add ?a ?b) with (a + b). change (Z.sub ?a ?b) with (a - b).
  rewrite Hn. unfold binary_round_aux, shr_fexp at 1.
  simpl Zdigits2.
  change (Z.add ?a ?b) with (a + b). change (Z.sub ?a ?b) with (a - b).
  rewrite Hn. unfold shr, shr_record_of_loc.
  rewrite iter_shr_spec by lia. reflexivity.
Qed.

Lemma round_finish_canonical (s : bool) (m : positive) (e : Z) :
  bounded prec emax m e = true ->
  round_finish prec emax s (Zpos m) e = S754_finite s m e.
Proof. intros Hb. by apply (binary_round_aux_finish prec emax s m e). Qed.

(** A mantissa that rounding carried to [2^prec] is halved. *)
Lemma round_finish_carry (s : bool) (m : positive) (e : Z) :
  bounded prec emax m e = true ->
  round_finish prec emax s (Zpos m~0) (e - 1) = S754_finite s m e.
Proof.
  intros Hb. destruct (bounded_canonical _ _ _ _ Hb) as [Hc He].
  pose proof (canonical_fexp _ _ _ _ Hc) as Hf.
  unfold round_finish, shr_fexp. simpl Zdigits2.
  change (Z.add ?a ?b) with (a + b). change (Z.sub ?a ?b) with (a - b).
  replace (Zpos (Pos.succ (digits2_pos m)) + (e - 1))
    with (Zpos (digits2_pos m) + e) by lia.
  rewrite Hf. replace (e - (e - 1)) with 1 by lia.
  simpl. change (Z.sub emax prec) with (emax - prec).
  replace (e - 1 + 1) with e by lia.
  by rewrite (proj2 (Z.leb_le _ _) He).
Qed.
End RoundingFormula.

(** ** Rounding a number close to a float gives that float *)

Lemma near_above (P mx q d : Z) :
  0 < q -> P = 4 * q * mx + d -> 0 <= d < q ->
  P / (4 * q) = mx /\ Z.odd (P / (2 * q)) = false.
Proof.
  intros Hq -> Hd. split.
  - symmetry. apply (Z.div_unique _ _ _ d); lia.
  - replace ((4 * q * mx + d) / (2 * q)) with (2 * mx);
      [apply Z.odd_even |].
    apply (Z.div_unique _ _ _ d); lia.
Qed.

Lemma near_below (P mx q d : Z) :
  0 < q -> P = 4 * q * mx + d -> - q < d < 0 ->
  P / (4 * q) = mx - 1 /\ Z.odd (P / (2 * q)) = true
  /\ (P mod (2 * q) =? 0) = false.
Proof.
  intros Hq -> Hd. repeat split.
  - symmetry. apply (Z.div_unique _ _ _ (4 * q + d)); lia.
  - replace ((4 * q * mx + d) / (2 * q)) with (2 * (mx - 1) + 1);
      [apply Z.odd_odd |].
    apply (Z.div_unique _ _ _ (2 * q + d)); lia.
  - apply Z.eqb_neq.
    rewrite <- (Z.mod_unique _ _ (2 * (mx - 1) + 1) (2 * q + d)); lia.
Qed.

Lemma near_below_power (P pw q d : Z) :
  0 < q -> P = 4 * q * pw + d -> - q < d < 0 ->
  P / (2 * q) = 2 * pw - 1 /\ Z.odd (P / q) = true
  /\ (P mod q =? 0) = false.
Proof.
  intros Hq -> Hd. repeat split.
  - symmetry. apply (Z.div_unique _ _ _ (2 * q + d)); lia.
  - replace ((4 * q * pw + d) / q) with (2 * (2 * pw - 1) + 1);
      [apply Z.odd_odd |].
    apply (Z.div_unique _ _ _ (q + d)); lia.
  - apply Z.eqb_neq.
    rewrite <- (Z.mod_unique _ _ (2 * (2 * pw - 1) + 1) (q + d)); lia.
Qed.

Lemma pow2_quarter (D : Z) :
  2 <= D ->
  0 < 2 ^ (D - 2) /\ 2 ^ (D - 1) = 2 * 2 ^ (D - 2) /\ 2 ^ D = 4 * 2 ^ (D - 2).
Proof.
  intros H. split; [apply Z.pow_pos_nonneg; lia |]. split.
  - replace (D - 1) with (Z.succ (D - 2)) by lia. apply Z.pow_succ_r. lia.
  - replace D with (Z.succ (Z.succ (D - 2))) at 1 by lia.
    rewrite !Z.pow_succ_r by lia. lia.
Qed.

Section RoundNear.
Variables prec emax : Z.
Hypothesis Hprec : 2 <= prec.

Lemma round_near (s : bool) (P mx : positive) (E ex : Z) :
  bounded prec emax mx ex = true ->
  Zpos (digits2_pos mx) = prec ->
  E + 2 <= ex ->
  4 * Z.abs (Zpos P - Zpos mx * 2 ^ (ex - E)) < 2 ^ (ex - E) ->
  binary_round prec emax s P E = S754_finite s mx ex.
Proof.
  intros Hb Hd HE Hnear.
  destruct (bounded_canonical _ _ _ _ Hb) as [Hc He].
  pose proof (canonical_fexp _ _ _ _ Hc) as Hf. rewrite Hd in Hf.
  pose proof (digits_bounds mx) as [Hlo Hhi]. rewrite Hd in Hlo, Hhi.
  remember (ex - E) as D eqn:HD.
  destruct (pow2_quarter D ltac:(lia)) as (Hq & H2q & H4q).
  destruct (pow2_quarter prec Hprec) as (Hhw & Hpw & H2pw).
  remember (2 ^ (D - 2)) as q eqn:Hqdef.
  remember (2 ^ (prec - 2)) as hw eqn:Hhwdef.
  rewrite Hpw in Hlo. rewrite H2pw in Hhi. rewrite H4q in Hnear.
  remember (Zpos P - Zpos mx * (4 * q)) as d eqn:Hddef.
  assert (HP : Zpos P = 4 * q * Zpos mx + d) by lia.
  assert (Hdq : - q < d < q) by lia.
  assert (Hemin : emin prec emax <= ex) by (unfold fexp in Hf; lia).
  assert (Hmono : q * (2 * hw) <= q * Zpos mx) by nia.
  assert (Hmono' : q * Zpos mx <= q * (4 * hw - 1)) by nia.
  (* the number of digits of [P] and the exponent it is rounded at *)
  assert (Hcases :
    (fexp prec emax (Zpos (digits2_pos P) + E) = ex /\ True)
    \/ (fexp prec emax (Zpos (digits2_pos P) + E) = ex - 1
        /\ d < 0 /\ Zpos mx = 2 * hw)).
  { destruct (Z_lt_le_dec d 0) as [Hneg|Hpos];
      [destruct (Z.eq_dec (Zpos mx) (2 * hw)) as [Hpow|Hnpow] |].
    - (* just below a power of two *)
      assert (Hdig : Zpos (digits2_pos P) = prec - 1 + D).
      { apply digits_unique.
        replace (prec - 1 + D - 1) with (prec - 2 + D) by lia.
        rewrite !Z.pow_add_r by lia.
        rewrite Hpw, H4q, <- Hhwdef. nia. }
      rewrite Hdig.
      replace (prec - 1 + D + E) with (prec + ex - 1) by lia.
      unfold fexp in *.
      destruct (Z_lt_le_dec (ex - 1) (emin prec emax)); [left | right]; lia.
    - left. split; [| done].
      assert (Hdig : Zpos (digits2_pos P) = prec + D).
      { apply digits_unique.
        replace (prec + D - 1) with (prec - 1 + D) by lia.
        rewrite !Z.pow_add_r by lia.
        rewrite Hpw, H2pw, H4q. nia. }
      rewrite Hdig. by replace (prec + D + E) with (prec + ex) by lia.
    - left. split; [| done].
      assert (Hdig : Zpos (digits2_pos P) = prec + D).
      { apply digits_unique.
        replace (prec + D - 1) with (prec - 1 + D) by lia.
        rewrite !Z.pow_add_r by lia.
        rewrite Hpw, H2pw, H4q. nia. }
      rewrite Hdig. by replace (prec + D + E) with (prec + ex) by lia. }
  destruct Hcases as [[Hfe _]|(Hfe & Hneg & Hpow)].
  - (* rounded at the exponent of the float *)
    rewrite (binary_round_right prec emax s P (Z.to_pos D) E)
      by (rewrite Hfe; lia).
    replace (Zpos (Z.to_pos D)) with D by lia.
    replace (E + D) with ex by lia.
    rewrite H2q, H4q.
    destruct (Z_lt_le_dec d 0) as [Hneg|Hpos].
    + destruct (near_below (Zpos P) (Zpos mx) q d) as (-> & -> & ->);
        [lia | done | lia |].
      simpl. replace (Zpos mx - 1 + 1) with (Zpos mx) by lia.
      by apply round_finish_canonical.
    + destruct (near_above (Zpos P) (Zpos mx) q d) as (-> & ->);
        [lia | done | lia |].
      destruct (negb _); by apply round_finish_canonical.
  - (* just below a power of two: rounded one exponent lower, and carried *)
    rewrite (binary_round_right prec emax s P (Z.to_pos (D - 1)) E)
      by (rewrite Hfe; lia).
    assert (D <> 2).
    { intros ->. simpl in Hqdef. lia. }
    replace (Zpos (Z.to_pos (D - 1))) with (D - 1) by lia.
    replace (D - 1 - 1) with (D - 2) by lia.
    replace (E + (D - 1)) with (ex - 1) by lia.
    rewrite H2q, <- Hqdef.
    destruct (near_below_power (Zpos P) (2 * hw) q d) as (-> & -> & ->);
      [lia | lia | lia |].
    simpl negb. cbn [loc_of_shr_record round_nearest_even].
    replace (2 * (2 * hw) - 1 + 1) with (Zpos mx~0) by lia.
    by apply round_finish_carry.
Qed.
End RoundNear.

(** ** Rounding moves a number by less than one unit in the last place *)

Lemma round_nearest_even_range (m : Z) (l : location) :
  m <= round_nearest_even m l <= m + 1.
Proof.
  destruct l as [|[]]; simpl; try lia. destruct (Z.even m); lia.
Qed.

Lemma bounded_of_digits (prec emax : Z) (m : positive) (e : Z) :
  Zpos (digits2_pos m) = prec ->
  emin prec emax <= e -> e <= emax - prec ->
  bounded prec emax m e = true.
Proof.
  intros Hd Hlo Hhi. unfold bounded, canonical_mantissa, fexp.
  apply andb_true_iff. split; [apply Z.eqb_eq | apply Z.leb_le].
  - change (Z.add ?a ?b) with (a + b). change (Z.sub ?a ?b) with (a - b).
    rewrite Hd. lia.
  - done.
Qed.

Section RoundLarge.
Variables prec emax : Z.
Hypothesis Hprec : 2 <= prec.

Lemma binary_round_large (s : bool) (P : positive) (E : Z) :
  prec < Zpos (digits2_pos P) ->
  emin prec emax <= Zpos (digits2_pos P) + E - prec ->
  Zpos (digits2_pos P) + E - prec + 1 <= emax - prec ->
  exists (m3 : positive) (e3 : Z),
    binary_round prec emax s P E = S754_finite s m3 e3
    /\ Zpos (digits2_pos P) - prec <= e3 - E
        <= Zpos (digits2_pos P) - prec + 1
    /\ Z.abs (Zpos m3 * 2 ^ (e3 - E) - Zpos P)
       <= 2 ^ (Zpos (digits2_pos P) - prec).
Proof.
  intros Hbig Hlo Hhi.
  remember (Zpos (digits2_pos P)) as d eqn:Hd.
  remember (d - prec) as t eqn:Ht.
  assert (Hfe : fexp prec emax (d + E) - E = Zpos (Z.to_pos t))
    by (unfold fexp; lia).
  rewrite Hd in Hfe.
  rewrite (binary_round_right prec emax s P (Z.to_pos t) E Hfe).
  replace (Zpos (Z.to_pos t)) with t by lia.
  set (l := loc_of_shr_record _).
  pose proof (round_nearest_even_range (Zpos P / 2 ^ t) l) as Hrange.
  remember (round_nearest_even (Zpos P / 2 ^ t) l) as m2 eqn:Hm2.
  clear Hm2 l.
  (* the truncated mantissa has [prec] digits *)
  pose proof (digits_bounds P) as [HPlo HPhi]. rewrite <- Hd in HPlo, HPhi.
  assert (Hpt : 0 < 2 ^ t) by (apply Z.pow_pos_nonneg; lia).
  assert (Hpp : 0 < 2 ^ (prec - 1)) by (apply Z.pow_pos_nonneg; lia).
  replace (d - 1) with (prec - 1 + t) in HPlo by lia.
  replace d with (prec + t) in HPhi by lia.
  rewrite Z.pow_add_r in HPlo, HPhi by lia.
  assert (H2p : 2 ^ prec = 2 * 2 ^ (prec - 1)).
  { replace prec with (Z.succ (prec - 1)) at 1 by lia.
    apply Z.pow_succ_r. lia. }
  pose proof (Z.div_mod (Zpos P) (2 ^ t) ltac:(lia)) as Hdm.
  pose proof (Z.mod_pos_bound (Zpos P) (2 ^ t) Hpt) as Hmod.
  remember (Zpos P / 2 ^ t) as m1 eqn:Hm1.
  remember (Zpos P mod 2 ^ t) as r1 eqn:Hr1.
  remember (2 ^ t) as T eqn:HT.
  remember (2 ^ (prec - 1)) as pw eqn:Hpw.
  assert (Hm1lo : pw <= m1) by nia.
  assert (Hm1hi : m1 < 2 * pw) by nia.
  destruct (Z_lt_le_dec m2 (2 * pw)) as [Hno|Hcarry].
  - (* no carry *)
    exists (Z.to_pos m2), (E + t).
    replace m2 with (Zpos (Z.to_pos m2)) at 1 by lia.
    rewrite round_finish_canonical.
    + split; [done |]. split; [lia |].
      replace (E + t - E) with t by lia. rewrite <- HT.
      replace (Zpos (Z.to_pos m2)) with m2 by lia. nia.
    + apply bounded_of_digits; [| lia | lia].
      apply digits_unique. rewrite H2p, <- Hpw. lia.
  - (* the rounded mantissa is [2^prec] *)
    assert (m2 = 2 * pw) as -> by lia.
    exists (Z.to_pos pw), (E + t + 1).
    replace (2 * pw) with (Zpos (Z.to_pos pw)~0) by lia.
    replace (E + t) with (E + t + 1 - 1) at 1 by lia.
    rewrite round_finish_carry.
    + split; [done |]. split; [lia |].
      replace (E + t + 1 - E) with (Z.succ t) by lia.
      rewrite Z.pow_succ_r, <- HT by lia.
      replace (Zpos (Z.to_pos pw)) with pw by lia. nia.
    + apply bounded_of_digits; [| lia | lia].
      apply digits_unique.
      replace (Zpos (Z.to_pos pw)) with pw by lia.
      rewrite H2p, <- Hpw. lia.
Qed.
End RoundLarge.

(** ** Two ways of writing one number round alike *)

Lemma binary_round_same_value (prec emax : Z) (s : bool) (p1 p2 : positive)
    (E1 E2 : Z) :
  Zpos p1 * 2 ^ (E1 - Z.min E1 E2) = Zpos p2 * 2 ^ (E2 - Z.min E1 E2) ->
  binary_round prec emax s p1 E1 = binary_round prec emax s p2 E2.
Proof.
  intros Hv.
  destruct (Z.lt_trichotomy E1 E2) as [Hlt|[->|Hgt]].
  - rewrite Z.min_l, Z.sub_diag, Z.mul_1_r in Hv by lia.
    set (k := Z.to_pos (E2 - E1)).
    assert (Hk : E2 - E1 = Zpos k) by (unfold k; lia).
    rewrite Hk, <- iter_xO_Z in Hv. injection Hv as ->.
    replace E1 with (E2 - Zpos k) by lia.
    apply binary_round_shift.
  - rewrite Z.min_id, Z.sub_diag, !Z.mul_1_r in Hv. by injection Hv as ->.
  - rewrite Z.min_r, Z.sub_diag, Z.mul_1_r in Hv by lia.
    set (k := Z.to_pos (E1 - E2)).
    assert (Hk : E1 - E2 = Zpos k) by (unfold k; lia).
    rewrite Hk, <- iter_xO_Z in Hv. injection Hv as <-.
    replace E2 with (E1 - Zpos k) by lia.
    symmetry. apply binary_round_shift.
Qed.

Lemma binary_normalize_same_value (prec emax M1 E1 M2 E2 : Z) (sz : bool) :
  M1 * 2 ^ (E1 - Z.min E1 E2) = M2 * 2 ^ (E2 - Z.min E1 E2) ->
  binary_normalize prec emax M1 E1 sz = binary_normalize prec emax M2 E2 sz.
Proof.
  intros Hv.
  assert (0 < 2 ^ (E1 - Z.min E1 E2)) by (apply Z.pow_pos_nonneg; lia).
  assert (0 < 2 ^ (E2 - Z.min E1 E2)) by (apply Z.pow_pos_nonneg; lia).
  destruct M1 as [|p1|p1], M2 as [|p2|p2]; try lia; simpl;
    [done | |]; apply binary_round_same_value; lia.
Qed.

(** ** Rounding to binary64 first does not change the binary32 sum *)

Lemma convert_finite (fmt : cython.format) (s : bool) (m : positive) (e : Z) :
  convert fmt (S754_finite s m e)
  = binary_round (cython.prec fmt) (cython.emax fmt) s m e.
Proof. by destruct s. Qed.

Lemma digits_le (p : positive) (n : Z) :
  Zpos p < 2 ^ n -> Zpos (digits2_pos p) <= n.
Proof.
  intros H. pose proof (digits_bounds p) as [Hlo _].
  destruct (Z_lt_le_dec n (Zpos (digits2_pos p))) as [Hlt|]; [| done].
  assert (2 ^ n <= 2 ^ (Zpos (digits2_pos p) - 1)).
  { apply Z.pow_le_mono_r; [lia |]. lia. }
  lia.
Qed.

(** A sum that fits in 53 bits is exact in binary64. *)
Lemma double_round_small (s : bool) (P : positive) (E : Z) :
  Zpos (digits2_pos P) <= 53 -> -149 <= E <= 104 ->
  convert cython.binary32 (binary_round 53 1024 s P E)
  = binary_round 24 128 s P E.
Proof.
  intros Hd HE.
  destruct (Z.eq_dec (Zpos (digits2_pos P)) 53) as [H53|Hlt].
  - rewrite (binary_round_exact 53 1024 s P P E E); [| | done].
    + apply convert_finite.
    + apply bounded_of_digits; [done | unfold emin; lia | lia].
  - set (k := Z.to_pos (53 - Zpos (digits2_pos P))).
    assert (Hk : Zpos k = 53 - Zpos (digits2_pos P)) by (unfold k; lia).
    rewrite <- (binary_round_shift 53 1024 s P k E).
    rewrite <- (binary_round_shift 24 128 s P k E).
    rewrite (binary_round_exact 53 1024 s _ (Pos.iter xO P k) _ (E - Zpos k));
      [| | done].
    + apply convert_finite.
    + apply bounded_of_digits; [| unfold emin; lia | lia].
      rewrite digits2_iter_xO. lia.
Qed.

(** A sum that does not fit is within a sliver of its larger operand,
    and both roundings give that operand. *)
Lemma double_round_large (s : bool) (P mx : positive) (E ex : Z) :
  bounded 24 128 mx ex = true -> Zpos (digits2_pos mx) = 24 ->
  53 < Zpos (digits2_pos P) -> -149 <= E -> 29 <= ex - E ->
  Z.abs (Zpos P - Zpos mx * 2 ^ (ex - E)) < 2 ^ 24 ->
  convert cython.binary32 (binary_round 53 1024 s P E) = S754_finite s mx ex
  /\ binary_round 24 128 s P E = S754_finite s mx ex.
Proof.
  intros Hb Hdx Hbig HE Hg Hnear.
  destruct (bounded_canonical _ _ _ _ Hb) as [Hc Hex].
  remember (ex - E) as g eqn:Hgdef.
  pose proof (digits_bounds mx) as [_ Hmx]. rewrite Hdx in Hmx.
  assert (Hpg : 0 < 2 ^ g) by (apply Z.pow_pos_nonneg; lia).
  assert (H27 : 2 ^ 27 <= 2 ^ g) by (apply Z.pow_le_mono_r; lia).
  change (2 ^ 27) with 134217728 in H27.
  change (2 ^ 24) with 16777216 in *.
  assert (HP25 : Zpos P < 2 ^ (g + 25)).
  { rewrite Z.pow_add_r by lia. change (2 ^ 25) with 33554432. nia. }
  pose proof (digits_le P (g + 25) HP25) as Hd.
  remember (Zpos (digits2_pos P)) as d eqn:Hddef.
  split.
  - destruct (binary_round_large 53 1024 ltac:(lia) s P E)
      as (m3 & e3 & -> & Hj & Hval).
    { lia. } { unfold emin. lia. } { lia. }
    rewrite <- Hddef in Hj, Hval.
    rewrite convert_finite. cbn [cython.prec cython.emax cython.binary32].
    apply (round_near 24 128 ltac:(lia)); [done | done | lia |].
    remember (e3 - E) as j eqn:Hjdef.
    replace (ex - e3) with (g - j) by lia.
    assert (HJ : 0 < 2 ^ j) by (apply Z.pow_pos_nonneg; lia).
    assert (HW : 0 < 2 ^ (g - j)) by (apply Z.pow_pos_nonneg; lia).
    assert (Hsplit : 2 ^ g = 2 ^ (g - j) * 2 ^ j).
    { rewrite <- Z.pow_add_r by lia. f_equal. lia. }
    assert (Ht : 8 * 2 ^ (d - 53) <= 2 ^ g).
    { change 8 with (2 ^ 3). rewrite <- Z.pow_add_r by lia.
      apply Z.pow_le_mono_r; lia. }
    remember (2 ^ j) as J. remember (2 ^ (g - j)) as W.
    remember (2 ^ (d - 53)) as T. remember (2 ^ g) as G.
    assert (4 * (Zpos m3 - Zpos mx * W) * J < W * J) by nia.
    assert (- (W * J) < 4 * (Zpos m3 - Zpos mx * W) * J) by nia.
    assert (4 * (Zpos m3 - Zpos mx * W) < W) by nia.
    assert (- W < 4 * (Zpos m3 - Zpos mx * W)) by nia.
    lia.
  - apply (round_near 24 128 ltac:(lia)); [done | done | lia |].
    rewrite <- Hgdef. lia.
Qed.

Lemma valid32_finite (s : bool) (m : positive) (e : Z) :
  valid cython.binary32 (S754_finite s m e) = true ->
  -149 <= e <= 104 /\ Zpos (digits2_pos m) <= 24
  /\ (-149 < e -> Zpos (digits2_pos m) = 24)
  /\ bounded 24 128 m e = true.
Proof.
  intros Hv. pose proof Hv as Hb.
  unfold valid, valid_binary, bounded, canonical_mantissa, fexp, emin in Hv.
  cbn in Hv. apply andb_true_iff in Hv as [Hc Hle].
  apply Z.eqb_eq in Hc. apply Z.leb_le in Hle.
  repeat split; try lia. exact Hb.
Qed.

(** The integer sum of two binary32 numbers, at the smaller exponent,
    rounds to the same binary32 number directly and through binary64. *)
Lemma double_round_sum (sa ss : bool) (ma ms : positive) (ea es : Z) :
  valid cython.binary32 (S754_finite sa ma ea) = true ->
  valid cython.binary32 (S754_finite ss ms es) = true ->
  es <= ea ->
  convert cython.binary32
    (binary_normalize 53 1024
       (cond_Zopp sa (Zpos ma * 2 ^ (ea - es)) + cond_Zopp ss (Zpos ms))
       es false)
  = binary_normalize 24 128
      (cond_Zopp sa (Zpos ma * 2 ^ (ea - es)) + cond_Zopp ss (Zpos ms))
      es false.
Proof.
  intros Hva Hvs Hle.
  destruct (valid32_finite _ _ _ Hva) as (Hea & Hda & Hna & Hba).
  destruct (valid32_finite _ _ _ Hvs) as (Hes & Hds & _ & _).
  pose proof (digits_bounds ma) as [Hmalo Hma].
  pose proof (digits_bounds ms) as [_ Hms].
  assert (Hma24 : Zpos ma < 2 ^ 24).
  { eapply Z.lt_le_trans; [exact Hma |]. apply Z.pow_le_mono_r; lia. }
  assert (Hms24 : Zpos ms < 2 ^ 24).
  { eapply Z.lt_le_trans; [exact Hms |]. apply Z.pow_le_mono_r; lia. }
  change (2 ^ 24) with 16777216 in *.
  remember (ea - es) as g eqn:Hg.
  assert (Hpg : 1 <= 2 ^ g) by (apply Z.lt_pred_le, Z.pow_pos_nonneg; lia).
  remember (Zpos ma * 2 ^ g) as X eqn:HX.
  assert (HXpos : 0 < X) by nia.
  assert (HXhi : X < 16777216 * 2 ^ g) by nia.
  remember (cond_Zopp sa X + cond_Zopp ss (Zpos ms)) as M eqn:HM.
  assert (Habs : Z.abs M < 2 ^ (g + 25)).
  { rewrite Z.pow_add_r by lia. change (2 ^ 25) with 33554432.
    destruct sa, ss; simpl in HM; lia. }
  assert (Hcore : forall (s : bool) (P : positive),
             Zpos P = Z.abs M ->
             convert cython.binary32 (binary_round 53 1024 s P es)
             = binary_round 24 128 s P es).
  { intros s P HP.
    destruct (Z_le_gt_dec (Zpos (digits2_pos P)) 53) as [Hsmall|Hbig].
    - apply double_round_small; lia.
    - assert (Hdg : Zpos (digits2_pos P) <= g + 25)
        by (apply digits_le; lia).
      assert (Hg29 : 29 <= g) by lia.
      assert (Hd24 : Zpos (digits2_pos ma) = 24) by (apply Hna; lia).
      rewrite Hd24 in Hmalo. change (2 ^ (24 - 1)) with 8388608 in Hmalo.
      assert (H29 : 2 ^ 29 <= 2 ^ g) by (apply Z.pow_le_mono_r; lia).
      change (2 ^ 29) with 536870912 in H29.
      assert (HXlo : 16777216 < X) by nia.
      destruct (double_round_large s P ma es ea) as [-> ->];
        [done | done | lia | lia | lia | | done].
      rewrite <- Hg, <- HX. change (2 ^ 24) with 16777216.
      destruct sa, ss; simpl in HM; lia. }
  destruct M as [|P|P]; simpl binary_normalize.
  - reflexivity.
  - apply Hcore. lia.
  - apply Hcore. lia.
Qed.

Lemma fadd_finite_aligned (fmt : cython.format) (sa ss : bool)
    (ma ms : positive) (ea es : Z) :
  es <= ea ->
  fadd fmt (S754_finite sa ma ea) (S754_finite ss ms es)
  = binary_normalize (cython.prec fmt) (cython.emax fmt)
      (cond_Zopp sa (Zpos ma * 2 ^ (ea - es)) + cond_Zopp ss (Zpos ms))
      es false.
Proof.
  intros Hle. unfold fadd, SFadd.
  change (Z.min ea es) with (ea `min` es). rewrite Z.min_r by done.
  rewrite !shl_align_fst by lia.
  by rewrite Z.sub_diag, Z.pow_0_r, Z.mul_1_r.
Qed.

Lemma aligned_sum_value (sa ss : bool) (ma ms : positive) (ea es : Z) :
  es <= ea ->
  (inject_Z (cond_Zopp sa (Zpos ma * 2 ^ (ea - es)) + cond_Zopp ss (Zpos ms))
   * 2 ^ es
   == F2Q (S754_finite sa ma ea) + F2Q (S754_finite ss ms es))%Q.
Proof.
  intros Hle. rewrite inject_Z_plus, Qmult_plus_distr_l, cond_Zopp_mul.
  simpl F2Q. by rewrite <- dyadic_scale.
Qed.

Lemma add_through_double_ordered (sa ss : bool) (ma ms : positive)
    (ea es : Z) :
  valid cython.binary32 (S754_finite sa ma ea) = true ->
  valid cython.binary32 (S754_finite ss ms es) = true ->
  es <= ea ->
  convert cython.binary32
    (fadd cython.binary64 (convert cython.binary64 (S754_finite sa ma ea))
                          (convert cython.binary64 (S754_finite ss ms es)))
  = fadd cython.binary32 (S754_finite sa ma ea) (S754_finite ss ms es).
Proof.
  intros Hva Hvs Hle.
  destruct (binary32_in_binary64 sa ma ea Hva) as (ma' & ea' & Hva' & Hqa).
  destruct (binary32_in_binary64 ss ms es Hvs) as (ms' & es' & Hvs' & Hqs).
  destruct (convert_exact cython.binary64 sa ma ea (S754_finite sa ma' ea'))
    as [-> _]; try done.
  destruct (convert_exact cython.binary64 ss ms es (S754_finite ss ms' es'))
    as [-> _]; try done.
  rewrite (fadd_finite_aligned cython.binary32) by done.
  cbn [cython.prec cython.emax cython.binary32].
  rewrite <- double_round_sum by done. f_equal.
  unfold fadd. cbn [cython.prec cython.emax cython.binary64].
  destruct (SFadd_finite_value 53 1024 sa ss ma' ms' ea' es')
    as (M2 & -> & HM2).
  apply binary_normalize_same_value, dyadic_eq.
  by rewrite HM2, Hqa, Hqs, aligned_sum_value.
Qed.

(** Adding two binary32 numbers in binary64 and converting the sum to
    binary32 gives their binary32 sum, whether or not that sum is exact. *)
Lemma add_through_double_valid (a s : spec_float) :
  valid cython.binary32 a = true -> valid cython.binary32 s = true ->
  convert cython.binary32
    (fadd cython.binary64 (convert cython.binary64 a)
                          (convert cython.binary64 s))
  = fadd cython.binary32 a s.
Proof.
  intros Hva Hvs.
  destruct a as [sa|sa| |sa ma ea], s as [ss|ss| |ss ms es];
    try (by destruct sa, ss); try reflexivity.
  - (* 0 + s *)
    destruct (binary32_in_binary64 ss ms es Hvs) as (m' & e' & Hv' & Hq).
    destruct (convert_exact cython.binary64 ss ms es (S754_finite ss m' e'))
      as [-> _]; try done.
    change (fadd cython.binary64 (convert cython.binary64 (S754_zero sa))
              (S754_finite ss m' e')) with (S754_finite ss m' e').
    by destruct (convert_exact cython.binary32 ss m' e' (S754_finite ss ms es))
      as [-> _].
  - (* inf + s *)
    destruct (binary32_in_binary64 ss ms es Hvs) as (m' & e' & Hv' & Hq).
    by destruct (convert_exact cython.binary64 ss ms es
                   (S754_finite ss m' e')) as [-> _].
  - (* a + 0 *)
    destruct (binary32_in_binary64 sa ma ea Hva) as (m' & e' & Hv' & Hq).
    destruct (convert_exact cython.binary64 sa ma ea (S754_finite sa m' e'))
      as [-> _]; try done.
    change (fadd cython.binary64 (S754_finite sa m' e')
              (convert cython.binary64 (S754_zero ss)))
      with (S754_finite sa m' e').
    by destruct (convert_exact cython.binary32 sa m' e' (S754_finite sa ma ea))
      as [-> _].
  - (* a + inf *)
    destruct (binary32_in_binary64 sa ma ea Hva) as (m' & e' & Hv' & Hq).
    by destruct (convert_exact cython.binary64 sa ma ea
                   (S754_finite sa m' e')) as [-> _].
  - (* a + nan *)
    destruct (binary32_in_binary64 sa ma ea Hva) as (m' & e' & Hv' & Hq).
    by destruct (convert_exact cython.binary64 sa ma ea
                   (S754_finite sa m' e')) as [-> _].
  - destruct (Z_le_gt_dec es ea) as [Hle|Hgt].
    + by apply add_through_double_ordered.
    + rewrite (fadd_comm cython.binary32), (fadd_comm cython.binary64).
      apply add_through_double_ordered; [done | done | lia].
Qed.

Lemma binary_round_opp (prec emax : Z) (s : bool) (m : positive) (e : Z) :
  binary_round prec emax (negb s) m e = SFopp (binary_round prec emax s m e).
Proof.
  unfold binary_round. destruct (shl_align _ _ _) as [mz ez].
  unfold binary_round_aux.
  destruct (shr_fexp prec emax (Zpos mz) ez loc_Exact) as [mrs' e'].
  destruct (shr_fexp prec emax _ e' loc_Exact) as [mrs'' e''].
  destruct (shr_m mrs'') as [|p|p]; [done | | done].
  by destruct (Z.leb e'' (Z.sub emax prec)).
Qed.

Lemma convert_opp (fmt : cython.format) (f : spec_float) :
  convert fmt (SFopp f) = SFopp (convert fmt f).
Proof.
  destruct f as [s|s| |s m e]; try reflexivity.
  change (SFopp (S754_finite s m e)) with (S754_finite (negb s) m e).
  rewrite !convert_finite. apply binary_round_opp.
Qed.

Lemma valid_opp (fmt : cython.format) (f : spec_float) :
  valid fmt (SFopp f) = valid fmt f.
Proof. by destruct f. Qed.

Lemma sub_through_double_valid (a s : spec_float) :
  valid cython.binary32 a = true -> valid cython.binary32 s = true ->
  convert cython.binary32
    (fsub cython.binary64 (convert cython.binary64 a)
                          (convert cython.binary64 s))
  = fsub cython.binary32 a s.
Proof.
  intros Hva Hvs. rewrite !fsub_as_fadd, <- convert_opp.
  apply add_through_double_valid; [done | by rewrite valid_opp].
Qed.

Section ThroughDouble.
Variable CYTH_VEC_COMPILED : bool.
Local Abbreviation fmt := (cython.float CYTH_VEC_COMPILED).

Lemma add_through_double_any (a s : cfloat) :
  valid fmt a = true -> valid fmt s = true ->
  narrow CYTH_VEC_COMPILED
    (fadd cython.binary64 (widen CYTH_VEC_COMPILED a)
                          (widen CYTH_VEC_COMPILED s))
  = cadd CYTH_VEC_COMPILED a s.
Proof.
  unfold narrow, widen, cadd. destruct CYTH_VEC_COMPILED; [| done].
  apply add_through_double_valid.
Qed.

Lemma sub_through_double_any (a s : cfloat) :
  valid fmt a = true -> valid fmt s = true ->
  narrow CYTH_VEC_COMPILED
    (fsub cython.binary64 (widen CYTH_VEC_COMPILED a)
                          (widen CYTH_VEC_COMPILED s))
  = csub CYTH_VEC_COMPILED a s.
Proof.
  unfold narrow, widen, csub. destruct CYTH_VEC_COMPILED; [| done].
  apply sub_through_double_valid.
Qed.

(** A double of the component format becomes a C float that widens
    back to it. *)
Lemma fits_narrow (d : pyfloat) :
  fits fmt d ->
  valid fmt (narrow CYTH_VEC_COMPILED d) = true
  /\ widen CYTH_VEC_COMPILED (narrow CYTH_VEC_COMPILED d) = d.
Proof.
  intros [Hv Hrep]. split; [| by apply widen_narrow].
  unfold narrow. destruct CYTH_VEC_COMPILED; [| done].
  destruct d as [s|s| |s m e]; try done.
  destruct (Hrep eq_refl) as (r & Hvr & Hfr & Hq).
  by destruct (convert_exact cython.binary32 s m e r) as [-> _].
Qed.
End ThroughDouble.

(** ** The two copies of the class *)

Section Copies.
Variable CYTH_VEC_COMPILED : bool.
Variable float_format : cfloat -> string -> option string.
Local Abbreviation arg := (to_cfloat CYTH_VEC_COMPILED).
Local Abbreviation fmt := (cython.float CYTH_VEC_COMPILED).

Lemma default_arg (o : option pyobject) :
  default zero (arg <$> o) = arg (default (Py zero) o).
Proof. destruct o; [reflexivity |]. by destruct CYTH_VEC_COMPILED. Qed.

Lemma scalar_copies_agree (v : Vec) (s : cfloat) (o : pyobject) :
  valid fmt (_x v) = true -> valid fmt (_y v) = true ->
  valid fmt (_z v) = true -> valid fmt (_w v) = true ->
  valid fmt s = true ->
  arg o = s -> as_double CYTH_VEC_COMPILED o = widen CYTH_VEC_COMPILED s ->
  vecmath.add_scalar CYTH_VEC_COMPILED v (arg o)
  = src_vecmath.add_scalar CYTH_VEC_COMPILED v o
  /\ vecmath.sub_scalar CYTH_VEC_COMPILED v (arg o)
     = src_vecmath.sub_scalar CYTH_VEC_COMPILED v o.
Proof.
  intros Hx Hy Hz Hw Hs Harg Hdbl. destruct v as [vx vy vz vw].
  unfold vecmath.add_scalar, src_vecmath.add_scalar, vecmath.sub_scalar,
    src_vecmath.sub_scalar, vecmath.new, src_vecmath.new, vecmath.__init__,
    src_vecmath.__init__, py_add, py_sub.
  cbn in *. rewrite Harg, Hdbl.
  by rewrite !add_through_double_any, !sub_through_double_any.
Qed.

(** C9, as amended.  Called with the same Python arguments, the two
    copies agree on construction, the getters, the setters, [add_vec],
    [sub_vec], [dot], [==] and formatting.  On [add_scalar] and
    [sub_scalar] they agree for every scalar when the module runs
    interpreted, and, compiled as well, whenever the scalar is a number
    of the component format, an infinity or NaN (the components of a
    vector always are).  An argument of [vecmath/vec.py] arrives
    converted to the declared [cython.float]. *)
Theorem copies_agree :
  (forall x y z w : option pyobject,
      vecmath.__init__ (arg <$> x) (arg <$> y) (arg <$> z) (arg <$> w)
      = src_vecmath.__init__ CYTH_VEC_COMPILED x y z w)
  /\ (forall v : Vec,
        vecmath.x v = src_vecmath.x v /\ vecmath.y v = src_vecmath.y v
        /\ vecmath.z v = src_vecmath.z v /\ vecmath.w v = src_vecmath.w v)
  /\ (forall (v : Vec) (value : pyobject),
        vecmath.set_x v (arg value)
        = src_vecmath.set_x CYTH_VEC_COMPILED v value
        /\ vecmath.set_y v (arg value)
           = src_vecmath.set_y CYTH_VEC_COMPILED v value
        /\ vecmath.set_z v (arg value)
           = src_vecmath.set_z CYTH_VEC_COMPILED v value
        /\ vecmath.set_w v (arg value)
           = src_vecmath.set_w CYTH_VEC_COMPILED v value)
  /\ (forall a b : Vec,
        vecmath.add_vec CYTH_VEC_COMPILED a b
        = src_vecmath.add_vec CYTH_VEC_COMPILED a b
        /\ vecmath.sub_vec CYTH_VEC_COMPILED a b
           = src_vecmath.sub_vec CYTH_VEC_COMPILED a b
        /\ vecmath.dot CYTH_VEC_COMPILED a b
           = src_vecmath.dot CYTH_VEC_COMPILED a b
        /\ vecmath.__eq__ a b = src_vecmath.__eq__ a b)
  /\ (forall (v : Vec) (spec : string),
        vecmath.__format__ float_format v spec
        = src_vecmath.__format__ float_format v spec
        /\ vecmath.__str__ float_format v
           = src_vecmath.__str__ float_format v)
  /\ (forall (v : Vec) (s : pyobject),
        vecmath.add_scalar false v (to_cfloat false s)
        = src_vecmath.add_scalar false v s
        /\ vecmath.sub_scalar false v (to_cfloat false s)
           = src_vecmath.sub_scalar false v s)
  /\ (forall (v : Vec) (d : pyfloat),
        valid fmt (_x v) = true -> valid fmt (_y v) = true ->
        valid fmt (_z v) = true -> valid fmt (_w v) = true ->
        fits fmt d ->
        vecmath.add_scalar CYTH_VEC_COMPILED v (arg (Py d))
        = src_vecmath.add_scalar CYTH_VEC_COMPILED v (Py d)
        /\ vecmath.sub_scalar CYTH_VEC_COMPILED v (arg (Py d))
           = src_vecmath.sub_scalar CYTH_VEC_COMPILED v (Py d))
  /\ (forall (v : Vec) (s : cfloat),
        valid fmt (_x v) = true -> valid fmt (_y v) = true ->
        valid fmt (_z v) = true -> valid fmt (_w v) = true ->
        valid fmt s = true ->
        vecmath.add_scalar CYTH_VEC_COMPILED v (arg (Boxed s))
        = src_vecmath.add_scalar CYTH_VEC_COMPILED v (Boxed s)
        /\ vecmath.sub_scalar CYTH_VEC_COMPILED v (arg (Boxed s))
           = src_vecmath.sub_scalar CYTH_VEC_COMPILED v (Boxed s)).
Proof.
  split; [| repeat apply conj; try (repeat split; fail)].
  - intros x y z w. unfold vecmath.__init__, src_vecmath.__init__.
    by rewrite !default_arg.
  - intros v d Hx Hy Hz Hw Hd.
    destruct (fits_narrow CYTH_VEC_COMPILED d Hd) as [Hv Hwn].
    by apply (scalar_copies_agree v (narrow CYTH_VEC_COMPILED d)).
  - intros v s Hx Hy Hz Hw Hs.
    by apply (scalar_copies_agree v s).
Qed.
End Copies.

(** Compiled, [Vec(16777216.0)] and the scalar [3.0]: the sum
    [16777219] is not a binary32 number, and both copies round it to
    [16777220]. *)
Lemma copies_agree_witness :
  fits cython.binary32 more_examples.three
  /\ vecmath.add_scalar true examples.big
       (to_cfloat true (Py more_examples.three))
     = src_vecmath.add_scalar true examples.big (Py more_examples.three)
  /\ vecmath.x (src_vecmath.add_scalar true examples.big
                  (Py more_examples.three))
     = lit true 16777220.
Proof.
  split; [apply fits_examples |]. split; [| reflexivity].
  apply (proj1 (proj2 (proj2 (proj2 (proj2 (proj2 (proj2
           (copies_agree true format_zero_only)))))))
           examples.big more_examples.three
           eq_refl eq_refl eq_refl eq_refl (proj1 fits_examples)).
Defined.

(** C9 as stated fails for the compiled module: with [v = Vec(16777216.0)]
    and the double [s = 1 + 2^-25], [vecmath/vec.py] rounds [s] to the C
    float [1.0] and [16777216 + 1] rounds back to [16777216], while
    [src/vecmath/vec.py] adds in double precision and the sum rounds to
    [16777218]. *)
Lemma copies_differ_on_add_scalar :
  valid cython.binary64 examples.above_one = true
  /\ valid cython.binary32 (vecmath.x examples.big) = true
  /\ to_cfloat true (Py examples.above_one) = lit true 1
  /\ vecmath.x (vecmath.add_scalar true examples.big
                  (to_cfloat true (Py examples.above_one)))
     = lit true 16777216
  /\ src_vecmath.x (src_vecmath.add_scalar true examples.big
                      (Py examples.above_one))
     = lit true 16777218
  /\ vecmath.__eq__
       (vecmath.add_scalar true examples.big
          (to_cfloat true (Py examples.above_one)))
       (src_vecmath.add_scalar true examples.big (Py examples.above_one))
     = false.
Proof. vm_compute. repeat split; reflexivity. Qed.
